(** * pulp_rpm.app.modulemd: extraction of module streams and module defaults

    A shallow embedding of [pulp_rpm/app/modulemd.py] and the properties of
    [parse_modulemd] and [parse_defaults].

    The two functions walk a libmodulemd index, build one Python dict per
    module stream (resp. per module default), and for each of them write a
    one-unit YAML snippet to a temporary file that is handed to pulpcore's
    [Artifact.init_and_validate].  libmodulemd, [json], [tempfile] and
    pulpcore are not part of the repository: their entry points are the
    fields of the class [Externals] below, and what a property needs from
    them is stated as an explicit contract. *)

From stdpp Require Import base option list gmap strings pretty.
From Stdlib Require Import NArith.

Open Scope string_scope.
Set Warnings "-register-all".

(* ===================================================================== *)
(** ** Python values                                                       *)
(* ===================================================================== *)

(** The exceptions that can leave the two functions: an attribute access on
    [None] (the only one raised by the code of the file itself), and the
    errors of the libraries ([GLib.Error] from libmodulemd, [OSError] from
    the file system or from pulpcore). *)
Inductive exception :=
| AttributeError (attr : string)
| GLibError (msg : string)
| OSError (msg : string).

(** What is handed to [json.dumps]. *)
Inductive json :=
| JNull
| JStr (s : string)
| JArr (l : list json)
| JObj (o : list (string * json)).

(** A Python [dict] with string keys: insertion ordered, and an assignment
    to a key that is already there replaces the value in place. *)
Definition dict (V : Type) : Type := list (string * V).

Fixpoint dict_set {V} (k : string) (v : V) (d : dict V) : dict V :=
  match d with
  | [] => [(k, v)]
  | (k', v') :: d' =>
      if decide (k' = k) then (k, v) :: d' else (k', v') :: dict_set k v d'
  end.

Fixpoint dict_get {V} (k : string) (d : dict V) : option V :=
  match d with
  | [] => None
  | (k', v') :: d' => if decide (k' = k) then Some v' else dict_get k d'
  end.

Definition keys {V} (d : dict V) : list string := d.*1.

Definition json_of_strings (l : list string) : json := JArr (JStr <$> l).

Definition json_of_dict (d : dict (list string)) : json :=
  JObj (prod_map id json_of_strings <$> d).

(* ===================================================================== *)
(** ** libmodulemd objects, as the code observes them                      *)
(* ===================================================================== *)

(** [Modulemd.Dependencies]: the two getters the code calls. *)
Record Dependencies := {
  get_runtime_modules : list string;
  get_runtime_streams : string → list string
}.

(** [Modulemd.ModuleStream]: the [props] read by the code ([None] when the
    document does not give the field; [version] is an unsigned integer)
    and the two getters. *)
Record ModuleStream := {
  props_module_name : option string;
  props_stream_name : option string;
  props_version : N;
  props_context : option string;
  props_arch : option string;
  get_rpm_artifacts : list string;
  get_dependencies : list Dependencies
}.

(** [Modulemd.Defaults]: the two getters the code calls, and the module the
    declaration is for (which the library needs to file it in an index). *)
Record Defaults := {
  defaults_module_name : string;
  get_default_stream : option string;
  get_default_profiles_for_stream : option string → json
}.

(** [Modulemd.Module]. *)
Record ModulemdModule := {
  get_module_name : string;
  get_all_streams : list ModuleStream;
  get_defaults : option Defaults
}.

(** [Modulemd.ModuleIndex]: the modules by name, and the dict that
    [get_default_streams()] returns (module name to default stream name).
    The code reads the two independently of each other. *)
Record ModuleIndex := {
  modules : gmap string ModulemdModule;
  default_streams : dict string
}.

Definition get_module (module_index : ModuleIndex) (module_name : string)
  : option ModulemdModule := modules module_index !! module_name.

Definition get_default_streams (module_index : ModuleIndex) : dict string :=
  default_streams module_index.

(** [pulpcore.app.models.content.Artifact], unsaved: the file it was made
    from and the digest the code reads. *)
Record Artifact := {
  file : string;
  sha256 : string
}.

(** The file system: path to contents. *)
Abbreviation FS := (gmap string string).

(* ===================================================================== *)
(** ** The external entry points                                           *)
(* ===================================================================== *)

Class Externals := {
  (** [json.dumps] *)
  json_dumps : json → string;
  (** [mmdlib.ModuleIndex.new()] *)
  ModuleIndex_new : ModuleIndex;
  (** [index.add_module_stream(s)]: the index afterwards, or the error *)
  add_module_stream : ModuleIndex → ModuleStream → exception + ModuleIndex;
  (** [index.add_defaults(defaults)] *)
  add_defaults : ModuleIndex → Defaults → exception + ModuleIndex;
  (** [index.dump_to_string()] *)
  dump_to_string : ModuleIndex → exception + string;
  (** the name [tempfile.NamedTemporaryFile(dir=os.getcwd(), delete=False)]
      picks in the given file system *)
  NamedTemporaryFile : FS → string;
  (** [Artifact.init_and_validate(path)] *)
  init_and_validate : string → FS → exception + Artifact
}.

(* ===================================================================== *)
(** ** Statements that may raise and touch the file system                 *)
(* ===================================================================== *)

(** A statement runs in a file system and ends with a value or with an
    exception; the files it wrote stay either way.  The exceptions are
    those of the attribute access on [None] and of the calls into
    libmodulemd and pulpcore; creating and writing the temporary file is
    taken to succeed. *)

Definition M (A : Type) : Type := FS → (exception + A) * FS.

Global Instance M_ret : MRet M := λ A (a : A) fs, (inr a, fs).

Global Instance M_bind : MBind M := λ A B (f : A → M B) (m : M A) fs,
  match m fs with
  | (inl e, fs') => (inl e, fs')
  | (inr a, fs') => f a fs'
  end.

Definition raise {A} (e : exception) : M A := λ fs, (inl e, fs).

(** A library call that only returns or raises. *)
Definition call {A} (r : exception + A) : M A := λ fs, (r, fs).

(** [obj.attr] where [obj] may be [None]. *)
Definition getattr {A} (obj : option A) (attr : string) : M A :=
  match obj with
  | Some a => mret a
  | None => raise (AttributeError attr)
  end.

(** [for x in xs: body], threading the variables the body assigns. *)
Fixpoint for_in {A S} (xs : list A) (body : A → S → M S) (acc : S) : M S :=
  match xs with
  | [] => mret acc
  | x :: xs' => acc' ← body x acc; for_in xs' body acc'
  end.

(* ===================================================================== *)
(** ** modulemd.py                                                         *)
(* ===================================================================== *)

(** The dict built for one stream.  Its keys are the constants of
    [PULP_MODULE_ATTR] ([NAME], [STREAM], [VERSION], [CONTEXT], [ARCH],
    [ARTIFACTS], [DEPENDENCIES]; [pulp_rpm.app.constants] gives them their
    strings) and the string ["artifact"]: one field per key. *)
Record modulemd_dict := {
  md_NAME : option string;
  md_STREAM : option string;
  md_VERSION : N;
  md_CONTEXT : option string;
  md_ARCH : option string;
  md_ARTIFACTS : string;
  md_DEPENDENCIES : string;
  md_artifact : Artifact
}.

(** The dict built for one module default.  Its keys are the constants of
    [PULP_MODULEDEFAULTS_ATTR] ([MODULE], [STREAM], [PROFILES], [DIGEST]) and
    the string ["artifact"]: one field per key. *)
Record defaults_dict := {
  df_MODULE : string;
  df_STREAM : option string;
  df_PROFILES : string;
  df_DIGEST : string;
  df_artifact : Artifact
}.

(** Lines 53-58: the loop that fills [dependencies]. *)
Definition flatten_dependencies (dependencies_list : list Dependencies)
  : dict (list string) :=
  foldl (λ dependencies dep,
           foldl (λ dependencies dependency,
                    dict_set dependency (get_runtime_streams dep dependency)
                             dependencies)
                 dependencies (get_runtime_modules dep))
        [] dependencies_list.

Section Code.
Context `{E : Externals}.

Definition _create_snippet (snippet_string : string) : M Artifact := λ fs,
  let tmp_file := NamedTemporaryFile fs in
  let fs := <[tmp_file := ""]> fs in
  let fs := <[tmp_file := snippet_string]> fs in
  (init_and_validate tmp_file fs, fs).

(** Lines 45-59 and 64: the dict of stream [s], given its artifact. *)
Definition modulemd_of (s : ModuleStream) (artifact : Artifact)
  : modulemd_dict :=
  {| md_NAME := props_module_name s;
     md_STREAM := props_stream_name s;
     md_VERSION := props_version s;
     md_CONTEXT := props_context s;
     md_ARCH := props_arch s;
     md_ARTIFACTS := json_dumps (json_of_strings (get_rpm_artifacts s));
     md_DEPENDENCIES :=
       json_dumps (json_of_dict (flatten_dependencies (get_dependencies s)));
     md_artifact := artifact |}.

(** The body of the inner loop of [parse_modulemd]. *)
Definition parse_modulemd_stream (s : ModuleStream)
  (ret : list modulemd_dict) : M (list modulemd_dict) :=
  temp_index ← call (add_module_stream ModuleIndex_new s);
  snippet ← call (dump_to_string temp_index);
  artifact ← _create_snippet snippet;
  mret (ret ++ [modulemd_of s artifact])%list.

Definition parse_modulemd (module_names : list string)
  (module_index : ModuleIndex) : M (list modulemd_dict) :=
  for_in module_names (λ module ret,
    m ← getattr (get_module module_index module) "get_all_streams";
    for_in (get_all_streams m) parse_modulemd_stream ret) [].

(** Lines 93-99: the dict of one module default. *)
Definition defaults_of (modulemd : ModulemdModule) (defaults : Defaults)
  (artifact : Artifact) : defaults_dict :=
  let default_stream := get_default_stream defaults in
  let default_profile :=
    get_default_profiles_for_stream defaults default_stream in
  {| df_MODULE := get_module_name modulemd;
     df_STREAM := default_stream;
     df_PROFILES := json_dumps default_profile;
     df_DIGEST := sha256 artifact;
     df_artifact := artifact |}.

(** The body of the loop of [parse_defaults]. *)
Definition parse_defaults_module (module_index : ModuleIndex)
  (module : string) (ret : list defaults_dict) : M (list defaults_dict) :=
  modulemd ← getattr (get_module module_index module) "get_defaults";
  match get_defaults modulemd with
  | Some defaults =>
      temp_index ← call (add_defaults ModuleIndex_new defaults);
      snippet ← call (dump_to_string temp_index);
      artifact ← _create_snippet snippet;
      mret (ret ++ [defaults_of modulemd defaults artifact])%list
  | None => mret ret
  end.

Definition parse_defaults (module_index : ModuleIndex)
  : M (list defaults_dict) :=
  let modulemd_defaults := keys (get_default_streams module_index) in
  for_in modulemd_defaults (parse_defaults_module module_index) [].

(** The indices the two loops walk when every lookup succeeds. *)
Definition streams_of (module_names : list string) (module_index : ModuleIndex)
  : option (list ModuleStream) :=
  ms ← mapM (get_module module_index) module_names;
  Some (ms ≫= get_all_streams).

Definition with_defaults (modulemd : ModulemdModule)
  : option (ModulemdModule * Defaults) :=
  defaults ← get_defaults modulemd; Some (modulemd, defaults).

Definition defaults_of_index (module_index : ModuleIndex)
  : option (list (ModulemdModule * Defaults)) :=
  ms ← mapM (get_module module_index) (keys (get_default_streams module_index));
  Some (omap with_defaults ms).

(** The snippet written for a stream, resp. for a defaults object: what
    the fresh index dumps once the unit has been added to it. *)
Definition stream_document (s : ModuleStream) : exception + string :=
  match add_module_stream ModuleIndex_new s with
  | inl e => inl e
  | inr temp_index => dump_to_string temp_index
  end.

Definition defaults_document (md : ModulemdModule * Defaults)
  : exception + string :=
  match add_defaults ModuleIndex_new md.2 with
  | inl e => inl e
  | inr temp_index => dump_to_string temp_index
  end.

(** The shape the two loop bodies share: write the document of a unit,
    make its artifact, append the dict. *)
Definition emit {U R} (doc : U → exception + string) (mk : U → Artifact → R)
  (u : U) (ret : list R) : M (list R) :=
  snippet ← call (doc u);
  artifact ← _create_snippet snippet;
  mret (ret ++ [mk u artifact])%list.

(** The file system after [_create_snippet snippet_string]. *)
Definition snippet_written (fs : FS) (snippet_string : string) : FS :=
  <[NamedTemporaryFile fs := snippet_string]> (<[NamedTemporaryFile fs := ""]> fs).

(** The artifact [a] was made from a file that held the document of [u],
    in a file system related to the final one [fs'] by [Rel]. *)
Definition made_from {U} (Rel : FS → FS → Prop)
  (doc : U → exception + string) (fs' : FS) (u : U) (a : Artifact) : Prop :=
  ∃ snippet path fsk,
    doc u = inr snippet ∧ init_and_validate path fsk = inr a ∧
    fsk !! path = Some snippet ∧ Rel fsk fs'.

Definition any_fs : FS → FS → Prop := λ _ _, True.

(** *** What the properties ask of the libraries *)

(** [tempfile] creates a file that did not exist. *)
Definition tempfile_fresh : Prop :=
  ∀ fs : FS, fs !! NamedTemporaryFile fs = None.

(** The artifact is the artifact of the file it was made from. *)
Definition artifact_keeps_file : Prop :=
  ∀ path fs a, init_and_validate path fs = inr a → file a = path.

(** The artifact's sha256 is the hash [H] of the contents of that file. *)
Definition artifact_hashes_file (H : string → string) : Prop :=
  ∀ path fs a contents,
    init_and_validate path fs = inr a → fs !! path = Some contents →
    sha256 a = H contents.

(** An artifact can be made from any file that holds [contents]. *)
Definition artifact_accepts (contents : string) : Prop :=
  ∀ path (fs : FS), fs !! path = Some contents →
    ∃ a, init_and_validate path fs = inr a.

(** The library writes the document of the unit and an artifact can be
    made from it. *)
Definition emits {U} (doc : U → exception + string) (u : U) : Prop :=
  ∃ snippet, doc u = inr snippet ∧ artifact_accepts snippet.

(** A stream added to a fresh index is the only content of that index. *)
Definition add_module_stream_alone : Prop :=
  ∀ s temp_index,
    add_module_stream ModuleIndex_new s = inr temp_index →
    ∃ n, modules temp_index =
           {[ n := {| get_module_name := n; get_all_streams := [s];
                      get_defaults := None |} ]}
         ∧ default_streams temp_index = [].

(** The reader [read] reads back the snippet written for stream [s]. *)
Definition reads_back (read : string → option ModuleIndex) (s : ModuleStream)
  : Prop :=
  ∀ temp_index snippet,
    add_module_stream ModuleIndex_new s = inr temp_index →
    dump_to_string temp_index = inr snippet →
    read snippet = Some temp_index.

End Code.

(** The records of a run, none if it raised. *)
Definition records_of {A} (run : (exception + list A) * FS) : list A :=
  match run.1 with
  | inr ret => ret
  | inl _ => []
  end.

(** The NSVCA of a stream and of a dict. *)
Definition stream_nsvca (s : ModuleStream) :=
  (props_module_name s, props_stream_name s, props_version s,
   props_context s, props_arch s).

Definition md_nsvca (r : modulemd_dict) :=
  (md_NAME r, md_STREAM r, md_VERSION r, md_CONTEXT r, md_ARCH r).

(* ===================================================================== *)
(** ** An executable instance of the external entry points                 *)
(* ===================================================================== *)

(** A small stand-in for the libraries, to run the code on concrete
    indices: an index that files streams and defaults under their module
    name, a line-per-unit writer, a name generator that returns an unused
    name, and an artifact factory that reads the file it is given. *)
Module Sim.

Definition quote : string := String (Ascii.ascii_of_nat 34) "".

Fixpoint dumps (j : json) : string :=
  match j with
  | JNull => "null"
  | JStr s => quote ++ s ++ quote
  | JArr l => "[" ++ String.concat ", " (dumps <$> l) ++ "]"
  | JObj o =>
      "{" ++ String.concat ", "
               ((λ kv, quote ++ kv.1 ++ quote ++ ": " ++ dumps kv.2) <$> o)
          ++ "}"
  end.

Definition new : ModuleIndex := {| modules := ∅; default_streams := [] |}.

Definition module_or_empty (idx : ModuleIndex) (n : string) : ModulemdModule :=
  default {| get_module_name := n; get_all_streams := []; get_defaults := None |}
          (modules idx !! n).

Definition add_stream (idx : ModuleIndex) (s : ModuleStream)
  : exception + ModuleIndex :=
  match props_module_name s, props_stream_name s with
  | Some n, Some _ =>
      let m := module_or_empty idx n in
      inr {| modules :=
               <[n := {| get_module_name := n;
                         get_all_streams := (get_all_streams m ++ [s])%list;
                         get_defaults := get_defaults m |}]> (modules idx);
             default_streams := default_streams idx |}
  | _, _ =>
      inl (GLibError
             "The module and stream names are required when adding to ModuleIndex.")
  end.

Definition add_default (idx : ModuleIndex) (d : Defaults)
  : exception + ModuleIndex :=
  let n := defaults_module_name d in
  let m := module_or_empty idx n in
  inr {| modules :=
           <[n := {| get_module_name := n;
                     get_all_streams := get_all_streams m;
                     get_defaults := Some d |}]> (modules idx);
         default_streams :=
           match get_default_stream d with
           | Some st => dict_set n st (default_streams idx)
           | None => default_streams idx
           end |}.

Definition field (o : option string) : string := default "~" o.

Definition stream_line (s : ModuleStream) : string :=
  "modulemd " ++ field (props_module_name s) ++ ":" ++
  field (props_stream_name s) ++ ":" ++ pretty (props_version s) ++ ":" ++
  field (props_context s) ++ ":" ++ field (props_arch s).

Definition defaults_line (d : Defaults) : string :=
  "modulemd-defaults " ++ defaults_module_name d ++ ":" ++
  field (get_default_stream d).

Definition module_lines (m : ModulemdModule) : list string :=
  ((stream_line <$> get_all_streams m) ++
   (defaults_line <$> option_list (get_defaults m)))%list.

Definition dump_text (idx : ModuleIndex) : string :=
  String.concat ";" ((map_to_list (modules idx)).*2 ≫= module_lines).

(** A reader that knows the documents of a finite collection of indices. *)
Definition read_in (known : list ModuleIndex) (text : string)
  : option ModuleIndex :=
  List.find (λ idx, bool_decide (dump_text idx = text)) known.

Definition tmpname (fs : FS) : string := fresh (dom fs).

Definition digest (contents : string) : string := "sha256:" ++ contents.

Definition artifact_of_file (path : string) (fs : FS) : exception + Artifact :=
  match fs !! path with
  | Some contents => inr {| file := path; sha256 := digest contents |}
  | None => inl (OSError "No such file or directory")
  end.


(** A factory that is out of order. *)
Definition artifact_fails (path : string) (fs : FS) : exception + Artifact :=
  inl (OSError "No space left on device").

Definition externals_with
  (factory : string → FS → exception + Artifact) : Externals :=
  {| json_dumps := dumps;
     ModuleIndex_new := new;
     add_module_stream := add_stream;
     add_defaults := add_default;
     dump_to_string := λ idx, inr (dump_text idx);
     NamedTemporaryFile := tmpname;
     init_and_validate := factory |}.

Definition externals : Externals := externals_with artifact_of_file.

End Sim.

(* ===================================================================== *)
(** ** Example indices                                                     *)
(* ===================================================================== *)

Definition no_dependencies : Dependencies :=
  {| get_runtime_modules := []; get_runtime_streams := λ _, [] |}.

(** One dependency declaration on the single module [platform]. *)
Definition requires_platform (streams : list string) : Dependencies :=
  {| get_runtime_modules := ["platform"];
     get_runtime_streams := λ m, if decide (m = "platform") then streams else [] |}.

Definition nodejs_stream (stream : string) (arch : option string)
  (rpms : list string) (deps : list Dependencies) : ModuleStream :=
  {| props_module_name := Some "nodejs";
     props_stream_name := Some stream;
     props_version := 20190801;
     props_context := Some "6c81f848";
     props_arch := arch;
     get_rpm_artifacts := rpms;
     get_dependencies := deps |}.

Definition nodejs_10 : ModuleStream :=
  nodejs_stream "10" (Some "x86_64")
    ["nodejs-1:10.16.0-1.x86_64"; "npm-1:6.9.0-1.x86_64";
     "nodejs-1:10.16.0-1.x86_64"]
    [requires_platform ["f30"]; requires_platform ["f31"; "f32"]].

(** A stream whose document gives no [arch]. *)
Definition nodejs_12 : ModuleStream :=
  nodejs_stream "12" None ["nodejs-1:12.4.0-1.x86_64"] [].

Definition nodejs_defaults : Defaults :=
  {| defaults_module_name := "nodejs";
     get_default_stream := Some "12";
     get_default_profiles_for_stream := λ st,
       if decide (st = Some "12") then json_of_strings ["common"]
       else if decide (st = Some "10") then json_of_strings ["development"]
       else JNull |}.

Definition nodejs : ModulemdModule :=
  {| get_module_name := "nodejs";
     get_all_streams := [nodejs_10; nodejs_12];
     get_defaults := Some nodejs_defaults |}.

(** A module the index lists among the default streams although it holds
    no defaults object. *)
Definition postgresql : ModulemdModule :=
  {| get_module_name := "postgresql";
     get_all_streams := [];
     get_defaults := None |}.

Definition example_index : ModuleIndex :=
  {| modules := <["nodejs" := nodejs]> (<["postgresql" := postgresql]> ∅);
     default_streams := [("postgresql", "9.6"); ("nodejs", "12")] |}.


(** The runs of the examples. *)
Definition nodejs_streams_run : (exception + list modulemd_dict) * FS := Eval
  vm_compute in parse_modulemd (E := Sim.externals) ["nodejs"] example_index ∅.

Definition example_defaults_run : (exception + list defaults_dict) * FS := Eval
  vm_compute in parse_defaults (E := Sim.externals) example_index ∅.

(** The same extraction once more, in the file system the first run left. *)
Definition example_defaults_rerun : (exception + list defaults_dict) * FS := Eval
  vm_compute in
    parse_defaults (E := Sim.externals) example_index example_defaults_run.2.

(** The index that holds one stream of [nodejs] and nothing else. *)
Definition nodejs_alone (s : ModuleStream) : ModuleIndex :=
  {| modules := {[ "nodejs" := {| get_module_name := "nodejs";
                                  get_all_streams := [s];
                                  get_defaults := None |} ]};
     default_streams := [] |}.

Definition known_documents : list ModuleIndex :=
  [nodejs_alone nodejs_10; nodejs_alone nodejs_12].

(** The first occurrence of each name of a list, in the order of the list. *)
Fixpoint first_occurrences (l : list string) : list string :=
  match l with
  | [] => []
  | x :: l' => x :: filter (λ y, y ≠ x) (first_occurrences l')
  end.

(** The example index with a module listed among the default streams that
    the index does not hold. *)
Definition ghost_listing_index : ModuleIndex :=
  {| modules := modules example_index;
     default_streams := [("nodejs", "12"); ("ghost", "1"); ("postgresql", "9.6")] |}.

(** The streams of [nodejs] extracted while the artifact factory is out of
    order. *)
Definition nodejs_streams_failing_run
  : (exception + list modulemd_dict) * FS := Eval
  vm_compute in
    parse_modulemd (E := Sim.externals_with Sim.artifact_fails)
                   ["nodejs"] example_index ∅.




(* ===================================================================== *)
(** ** Loops and statements                                                *)
(* ===================================================================== *)

Ltac unfold_M :=
  unfold mbind, M_bind, mret, M_ret, call, raise, getattr in *; simpl in *.

Lemma bind_inr {A B} (m : M A) (f : A → M B) fs b fs' :
  (m ≫= f) fs = (inr b, fs') ↔
  ∃ a fs1, m fs = (inr a, fs1) ∧ f a fs1 = (inr b, fs').
Proof.
  unfold mbind, M_bind. split.
  - destruct (m fs) as [[e|a] fs1]; [discriminate|]. intros Hf. by exists a, fs1.
  - intros (a & fs1 & -> & Hf). exact Hf.
Qed.

Lemma for_in_app {A S} (xs ys : list A) (body : A → S → M S) acc fs :
  for_in (xs ++ ys)%list body acc fs
  = (acc' ← for_in xs body acc; for_in ys body acc') fs.
Proof.
  revert acc fs. induction xs as [|x xs IH]; intros acc fs; simpl.
  - reflexivity.
  - unfold mbind, M_bind in *. destruct (body x acc fs) as [[e|acc1] fs1]; [done|].
    apply IH.
Qed.

Lemma for_in_ext {A S} (xs : list A) (body body' : A → S → M S) acc fs :
  (∀ x acc fs, body x acc fs = body' x acc fs) →
  for_in xs body acc fs = for_in xs body' acc fs.
Proof.
  intros Hext. revert acc fs. induction xs as [|x xs IH]; intros acc fs; simpl.
  - reflexivity.
  - unfold mbind, M_bind. rewrite Hext.
    destruct (body' x acc fs) as [[e|acc1] fs1]; [done|]. apply IH.
Qed.

(** The rule of the loop invariant: [I] relates the items walked so far
    to the variables and the file system. *)
Lemma for_in_invariant {A S} (I : list A → S → FS → Prop)
  (xs : list A) (body : A → S → M S) acc fs acc' fs' :
  I [] acc fs →
  (∀ done x acc fs acc' fs',
     I done acc fs → body x acc fs = (inr acc', fs') →
     I (done ++ [x])%list acc' fs') →
  for_in xs body acc fs = (inr acc', fs') →
  I xs acc' fs'.
Proof.
  intros Hinit Hstep.
  assert (Hgen : ∀ done acc fs,
             I done acc fs → for_in xs body acc fs = (inr acc', fs') →
             I (done ++ xs)%list acc' fs').
  { clear acc fs Hinit.
    induction xs as [|x xs IH]; intros done acc fs HI Hrun; simpl in Hrun.
    - unfold_M. injection Hrun as <- <-. by rewrite app_nil_r.
    - apply bind_inr in Hrun as (acc1 & fs1 & Hbody & Hrest).
      replace (done ++ x :: xs)%list with ((done ++ [x]) ++ xs)%list
        by (by rewrite <- app_assoc).
      eapply IH; [|exact Hrest]. eapply Hstep; eauto. }
  apply (Hgen [] acc fs Hinit).
Qed.

(** A loop whose body returns on every item returns. *)
Lemma for_in_returns {A S} (xs : list A) (body : A → S → M S) acc fs :
  Forall (λ x, ∀ acc fs, ∃ acc' fs', body x acc fs = (inr acc', fs')) xs →
  ∃ acc' fs', for_in xs body acc fs = (inr acc', fs').
Proof.
  intros Hall. revert acc fs.
  induction Hall as [|x xs Hx _ IH]; intros acc fs; simpl.
  - by exists acc, fs.
  - destruct (Hx acc fs) as (acc1 & fs1 & Hbody).
    destruct (IH acc1 fs1) as (acc' & fs' & Hrest).
    exists acc', fs'. apply bind_inr. eauto.
Qed.

(* ===================================================================== *)
(** ** The snippet files and the emitting loop                             *)
(* ===================================================================== *)

Section Emit.
Context `{E : Externals}.

Lemma create_snippet_run snippet_string fs :
  _create_snippet snippet_string fs
  = (init_and_validate (NamedTemporaryFile fs) (snippet_written fs snippet_string),
     snippet_written fs snippet_string).
Proof. reflexivity. Qed.

Lemma snippet_written_lookup fs snippet_string :
  snippet_written fs snippet_string !! NamedTemporaryFile fs = Some snippet_string.
Proof. unfold snippet_written. apply lookup_insert_eq. Qed.

Lemma snippet_written_subseteq fs snippet_string :
  tempfile_fresh → fs ⊆ snippet_written fs snippet_string.
Proof.
  intros Hfresh. unfold snippet_written. rewrite insert_insert_eq.
  apply insert_subseteq, Hfresh.
Qed.

Lemma emit_inr {U R} (doc : U → exception + string) (mk : U → Artifact → R)
  u ret fs ret' fs' :
  emit doc mk u ret fs = (inr ret', fs') ↔
  ∃ snippet a,
    doc u = inr snippet ∧ fs' = snippet_written fs snippet ∧
    init_and_validate (NamedTemporaryFile fs) fs' = inr a ∧
    ret' = (ret ++ [mk u a])%list.
Proof.
  unfold emit. rewrite bind_inr. split.
  - intros (snippet & fs1 & Hdoc & Hrest). unfold call in Hdoc.
    injection Hdoc as Hdoc <-.
    apply bind_inr in Hrest as (a & fs2 & Hart & Hret).
    rewrite create_snippet_run in Hart. injection Hart as Hart <-.
    unfold mret, M_ret in Hret. injection Hret as <- <-.
    by exists snippet, a.
  - intros (snippet & a & Hdoc & -> & Hart & ->).
    exists snippet, fs. split; [unfold call; by rewrite Hdoc|].
    apply bind_inr. exists a, (snippet_written fs snippet).
    split; [|done]. rewrite create_snippet_run. by rewrite Hart.
Qed.

Lemma emit_loop {U R} (Rel : FS → FS → Prop) `{!PreOrder Rel}
  (doc : U → exception + string) (mk : U → Artifact → R) us ret fs ret' fs' :
  (∀ fs snippet, Rel fs (snippet_written fs snippet)) →
  for_in us (emit doc mk) ret fs = (inr ret', fs') →
  ∃ arts, ret' = (ret ++ zip_with mk us arts)%list ∧
          Forall2 (made_from Rel doc fs') us arts.
Proof.
  intros Hwrite Hrun.
  pose (I := λ (done : list U) (acc : list R) (fsc : FS),
          ∃ arts, acc = (ret ++ zip_with mk done arts)%list ∧
                  Forall2 (made_from Rel doc fsc) done arts).
  apply (for_in_invariant I us (emit doc mk) ret fs ret' fs'); [| |exact Hrun].
  - exists []. split; [by rewrite app_nil_r|constructor].
  - intros done u acc fsc acc' fsc' (arts & -> & Hmade) Hbody.
    apply emit_inr in Hbody as (snippet & a & Hdoc & -> & Hart & ->).
    exists (arts ++ [a])%list. split.
    + rewrite zip_with_app by (by eapply Forall2_length).
      by rewrite <- app_assoc.
    + apply Forall2_app.
      * eapply Forall2_impl; [exact Hmade|].
        intros u' a' (sn & path & fsk & ? & ? & ? & Hrel).
        exists sn, path, fsk. repeat split; try done.
        etrans; [exact Hrel|apply Hwrite].
      * constructor; [|constructor].
        exists snippet, (NamedTemporaryFile fsc), (snippet_written fsc snippet).
        repeat split; try done. apply snippet_written_lookup.
Qed.

#[global] Instance any_fs_preorder : PreOrder any_fs.
Proof. by split. Qed.

Lemma any_fs_written (fs : FS) snippet :
  any_fs fs (snippet_written fs snippet).
Proof. done. Qed.

(** The dicts of a run that returns, in the order of the units. *)
Lemma emit_loop_records {U R} (doc : U → exception + string)
  (mk : U → Artifact → R) us ret fs ret' fs' :
  for_in us (emit doc mk) ret fs = (inr ret', fs') →
  ∃ arts, ret' = (ret ++ zip_with mk us arts)%list ∧
          Forall2 (made_from any_fs doc fs') us arts.
Proof. apply emit_loop; [apply _|done]. Qed.

(** With fresh temporary files, the snippets are all still there at the
    end of the run. *)
Lemma emit_loop_stored {U R} (doc : U → exception + string)
  (mk : U → Artifact → R) us ret fs ret' fs' :
  tempfile_fresh →
  for_in us (emit doc mk) ret fs = (inr ret', fs') →
  ∃ arts, ret' = (ret ++ zip_with mk us arts)%list ∧
          Forall2 (made_from (⊆) doc fs') us arts.
Proof.
  intros Hfresh. apply emit_loop; [apply _|].
  intros fs0 snippet. by apply snippet_written_subseteq.
Qed.

(** Each dict of the loop is made of its unit and of some artifact. *)
Lemma zip_with_made {U R} (mk : U → Artifact → R) (us : list U) arts :
  length us = length arts →
  Forall2 (λ u r, ∃ a, r = mk u a) us (zip_with mk us arts).
Proof.
  revert arts. induction us as [|u us IH]; intros [|a arts] Hlen;
    try discriminate; cbn [zip_with]; constructor; [by exists a|].
  apply IH. by injection Hlen.
Qed.

(** The loop returns when the libraries do on every unit. *)
Lemma emit_loop_returns {U R} (doc : U → exception + string)
  (mk : U → Artifact → R) us ret fs :
  Forall (emits doc) us →
  ∃ ret' fs', for_in us (emit doc mk) ret fs = (inr ret', fs').
Proof.
  intros Hall. apply for_in_returns.
  eapply Forall_impl; [exact Hall|]. clear.
  intros u (snippet & Hdoc & Hacc) acc fs.
  destruct (Hacc (NamedTemporaryFile fs) (snippet_written fs snippet))
    as [a Ha]; [apply snippet_written_lookup|].
  exists (acc ++ [mk u a])%list, (snippet_written fs snippet).
  apply emit_inr. by exists snippet, a.
Qed.

End Emit.

(* ===================================================================== *)
(** ** The two walks                                                       *)
(* ===================================================================== *)

Section Walk.
Context `{E : Externals}.

Lemma parse_modulemd_stream_emit s ret fs :
  parse_modulemd_stream s ret fs = emit stream_document modulemd_of s ret fs.
Proof.
  unfold parse_modulemd_stream, emit, stream_document. unfold_M.
  destruct (add_module_stream ModuleIndex_new s) as [e|temp_index]; [done|].
  by destruct (dump_to_string temp_index).
Qed.

(** When every name resolves, [parse_modulemd] is one loop over the
    streams of the named modules, in order. *)
Lemma parse_modulemd_walk module_names module_index ms acc fs :
  mapM (get_module module_index) module_names = Some ms →
  for_in module_names (λ module ret,
      m ← getattr (get_module module_index module) "get_all_streams";
      for_in (get_all_streams m) parse_modulemd_stream ret) acc fs
  = for_in (ms ≫= get_all_streams) (emit stream_document modulemd_of) acc fs.
Proof.
  intros Hms%mapM_Some. revert acc fs.
  induction Hms as [|module m module_names ms Hm _ IH]; intros acc fs.
  - reflexivity.
  - rewrite bind_cons, for_in_app. simpl. rewrite Hm. unfold_M.
    rewrite (for_in_ext _ _ _ _ _ parse_modulemd_stream_emit).
    destruct (for_in (get_all_streams m) _ acc fs) as [[e|acc1] fs1]; [done|].
    apply IH.
Qed.

Lemma parse_modulemd_resolved module_names module_index ms fs :
  mapM (get_module module_index) module_names = Some ms →
  parse_modulemd module_names module_index fs
  = for_in (ms ≫= get_all_streams) (emit stream_document modulemd_of) [] fs.
Proof. apply parse_modulemd_walk. Qed.

(** A run that returns has resolved every name. *)
Lemma parse_modulemd_inr_resolved module_names module_index fs ret fs' :
  parse_modulemd module_names module_index fs = (inr ret, fs') →
  ∃ ms, mapM (get_module module_index) module_names = Some ms.
Proof.
  unfold parse_modulemd. generalize (@nil modulemd_dict) as acc. revert fs.
  induction module_names as [|module module_names IH]; intros fs acc Hrun.
  - by exists [].
  - simpl in Hrun. apply bind_inr in Hrun as (acc1 & fs1 & Hbody & Hrest).
    destruct (get_module module_index module) as [m|] eqn:Hm;
      [|unfold_M; discriminate].
    destruct (IH _ _ Hrest) as [ms Hms].
    exists (m :: ms). apply mapM_Some. constructor; [done|by apply mapM_Some].
Qed.

(** The dicts of a run of [parse_modulemd] that returns, with the relation
    [Rel] between the file system an artifact was made in and the final one. *)
Lemma parse_modulemd_records Rel `{!PreOrder Rel}
  module_names module_index fs ret fs' :
  (∀ fs snippet, Rel fs (snippet_written fs snippet)) →
  parse_modulemd module_names module_index fs = (inr ret, fs') →
  ∃ ss arts,
    streams_of module_names module_index = Some ss ∧
    ret = zip_with modulemd_of ss arts ∧
    Forall2 (made_from Rel stream_document fs') ss arts.
Proof.
  intros Hwrite Hrun.
  destruct (parse_modulemd_inr_resolved _ _ _ _ _ Hrun) as [ms Hms].
  rewrite (parse_modulemd_resolved _ _ _ _ Hms) in Hrun.
  apply (emit_loop Rel) in Hrun as (arts & -> & Hmade); [|done].
  exists (ms ≫= get_all_streams), arts. unfold streams_of. by rewrite Hms.
Qed.

(** A name that does not resolve stops the walk where it stands. *)
Lemma parse_modulemd_missing pre module post module_index fs :
  get_module module_index module = None →
  parse_modulemd (pre ++ module :: post) module_index fs
  = match parse_modulemd pre module_index fs with
    | (inr _, fs1) => (inl (AttributeError "get_all_streams"), fs1)
    | (inl e, fs1) => (inl e, fs1)
    end.
Proof.
  intros Hm. unfold parse_modulemd. rewrite for_in_app. unfold mbind, M_bind.
  destruct (for_in pre _ [] fs) as [[e|acc] fs1]; [done|].
  simpl. rewrite Hm. reflexivity.
Qed.

(** One turn of the loop of [parse_defaults]. *)
Lemma parse_defaults_module_run module_index module ret fs :
  parse_defaults_module module_index module ret fs
  = match get_module module_index module with
    | None => (inl (AttributeError "get_defaults"), fs)
    | Some modulemd =>
        match get_defaults modulemd with
        | Some defaults =>
            emit defaults_document (uncurry defaults_of) (modulemd, defaults) ret fs
        | None => (inr ret, fs)
        end
    end.
Proof.
  unfold parse_defaults_module, emit, defaults_document.
  destruct (get_module module_index module) as [modulemd|]; [|done].
  unfold_M. destruct (get_defaults modulemd) as [defaults|]; [|done].
  destruct (add_defaults ModuleIndex_new defaults) as [e|temp_index]; [done|].
  by destruct (dump_to_string temp_index).
Qed.

(** When every listed name resolves, [parse_defaults] is one loop over
    the modules that hold a defaults object. *)
Lemma parse_defaults_walk module_index names ms acc fs :
  mapM (get_module module_index) names = Some ms →
  for_in names (parse_defaults_module module_index) acc fs
  = for_in (omap with_defaults ms) (emit defaults_document (uncurry defaults_of))
           acc fs.
Proof.
  intros Hms%mapM_Some. revert acc fs.
  induction Hms as [|module m names ms Hm _ IH]; intros acc fs.
  - reflexivity.
  - simpl. unfold mbind at 1, M_bind at 1.
    rewrite parse_defaults_module_run, Hm. unfold with_defaults at 1.
    destruct (get_defaults m) as [defaults|]; simpl.
    + unfold mbind, M_bind.
      destruct (emit _ _ _ acc fs) as [[e|acc1] fs1]; [done|]. apply IH.
    + apply IH.
Qed.

Lemma parse_defaults_inr_resolved module_index fs ret fs' :
  parse_defaults module_index fs = (inr ret, fs') →
  ∃ ms, mapM (get_module module_index) (keys (get_default_streams module_index))
        = Some ms.
Proof.
  unfold parse_defaults. generalize (@nil defaults_dict) as acc. revert fs.
  induction (keys (get_default_streams module_index)) as [|module names IH];
    intros fs acc Hrun.
  - by exists [].
  - simpl in Hrun. apply bind_inr in Hrun as (acc1 & fs1 & Hbody & Hrest).
    rewrite parse_defaults_module_run in Hbody.
    destruct (get_module module_index module) as [m|] eqn:Hm; [|discriminate].
    destruct (IH _ _ Hrest) as [ms Hms].
    exists (m :: ms). apply mapM_Some. constructor; [done|by apply mapM_Some].
Qed.

(** The dicts of a run of [parse_defaults] that returns, with the relation
    [Rel] between the file system an artifact was made in and the final one. *)
Lemma parse_defaults_records Rel `{!PreOrder Rel} module_index fs ret fs' :
  (∀ fs snippet, Rel fs (snippet_written fs snippet)) →
  parse_defaults module_index fs = (inr ret, fs') →
  ∃ mds arts,
    defaults_of_index module_index = Some mds ∧
    ret = zip_with (uncurry defaults_of) mds arts ∧
    Forall2 (made_from Rel defaults_document fs') mds arts.
Proof.
  intros Hwrite Hrun.
  destruct (parse_defaults_inr_resolved _ _ _ _ Hrun) as [ms Hms].
  unfold parse_defaults in Hrun. rewrite (parse_defaults_walk _ _ _ _ _ Hms) in Hrun.
  apply (emit_loop Rel) in Hrun as (arts & -> & Hmade); [|done].
  exists (omap with_defaults ms), arts. unfold defaults_of_index. by rewrite Hms.
Qed.

End Walk.

(* ===================================================================== *)
(** ** Python dicts and the flattening of the dependencies                 *)
(* ===================================================================== *)






(* ===================================================================== *)
(** ** The stand-in libraries keep the contracts                           *)
(* ===================================================================== *)

Lemma sim_tempfile_fresh factory :
  tempfile_fresh (E := Sim.externals_with factory).
Proof.
  intros fs. simpl. unfold Sim.tmpname. apply not_elem_of_dom, is_fresh.
Qed.

Lemma sim_artifact_keeps_file : artifact_keeps_file (E := Sim.externals).
Proof.
  intros path fs a. simpl. unfold Sim.artifact_of_file.
  destruct (fs !! path); [|discriminate]. by intros [= <-].
Qed.

Lemma sim_artifact_hashes_file :
  artifact_hashes_file (E := Sim.externals) Sim.digest.
Proof.
  intros path fs a contents. simpl. unfold Sim.artifact_of_file.
  intros Ha Hfile. rewrite Hfile in Ha. by injection Ha as <-.
Qed.

Lemma sim_artifact_accepts contents :
  artifact_accepts (E := Sim.externals) contents.
Proof.
  intros path fs Hfile. simpl. unfold Sim.artifact_of_file. rewrite Hfile. eauto.
Qed.

Lemma sim_add_module_stream_alone factory :
  add_module_stream_alone (E := Sim.externals_with factory).
Proof.
  intros s temp_index. simpl. unfold Sim.add_stream.
  destruct (props_module_name s) as [n|]; [|discriminate].
  destruct (props_stream_name s); [|discriminate].
  intros [= <-]. exists n. simpl. split; [|done].
  unfold Sim.module_or_empty. simpl. rewrite lookup_empty. simpl.
  apply insert_empty.
Qed.

Lemma sim_stream_emits s :
  is_Some (props_module_name s) → is_Some (props_stream_name s) →
  emits (E := Sim.externals) (stream_document (E := Sim.externals)) s.
Proof.
  intros [n Hn] [st Hst]. unfold emits, stream_document. simpl.
  unfold Sim.add_stream. rewrite Hn, Hst.
  eexists. split; [reflexivity|]. apply sim_artifact_accepts.
Qed.

(* ===================================================================== *)
(** ** Properties of [parse_modulemd]                                      *)
(* ===================================================================== *)

Section Streams.
Context `{E : Externals}.


(** The run returns when every name resolves and the libraries return on
    every stream of the walk. *)
Lemma parse_modulemd_returns module_names module_index ss fs :
  streams_of module_names module_index = Some ss →
  Forall (emits stream_document) ss →
  ∃ ret fs', parse_modulemd module_names module_index fs = (inr ret, fs').
Proof.
  unfold streams_of. intros Hss Hemits.
  destruct (mapM (get_module module_index) module_names) as [ms|] eqn:Hms;
    [|discriminate].
  injection Hss as <-. rewrite (parse_modulemd_resolved _ _ _ _ Hms).
  by apply emit_loop_returns.
Qed.


(** C4. The dicts that [parse_modulemd] returns are those of the streams
    of the named modules in the order of the index (module after module,
    and within a module in the order of [get_all_streams]), one dict per
    stream, and the artifacts of each dict are the JSON text of the array
    of the RPM artifacts of its stream as the stream lists them, repeated
    entries included.  The call returns whenever every name resolves and
    the libraries return on every stream. *)
Theorem C4_records_in_index_order module_names module_index fs :
  (∀ ret fs',
     parse_modulemd module_names module_index fs = (inr ret, fs') →
     ∃ ss, streams_of module_names module_index = Some ss ∧
           md_nsvca <$> ret = stream_nsvca <$> ss ∧
           md_ARTIFACTS <$> ret
           = (λ s, json_dumps (JArr (JStr <$> get_rpm_artifacts s))) <$> ss) ∧
  (∀ ss, streams_of module_names module_index = Some ss →
         Forall (emits stream_document) ss →
         ∃ ret fs', parse_modulemd module_names module_index fs = (inr ret, fs')).
Proof.
  split; [|intros ss; apply parse_modulemd_returns].
  intros ret fs' Hrun.
  apply (parse_modulemd_records any_fs) in Hrun
    as (ss & arts & Hss & -> & Hmade); [|done].
  exists ss. split; [done|].
  apply Forall2_length in Hmade. clear Hss.
  revert arts Hmade. induction ss as [|s ss IH]; intros [|a arts] Hlen;
    try discriminate; [done|].
  injection Hlen as Hlen. destruct (IH arts Hlen) as [IH1 IH2].
  cbn [zip_with fmap list_fmap] in *. by rewrite IH1, IH2.
Qed.

(** C5, as the code has it.  A name of [module_names] that the index does
    not resolve makes the whole call raise: no list of dicts is returned
    and the names after it are not visited.  The code has no error of its
    own for the failed lookup: the exception is the attribute error of
    [get_all_streams] on the [None] that [get_module] returned, unless the
    walk of the names before it had already raised, and then it is that
    earlier exception. *)
Theorem C5_missing_module_fails_whole_call pre module post module_index fs :
  get_module module_index module = None →
  (∀ ret fs',
     parse_modulemd (pre ++ module :: post) module_index fs ≠ (inr ret, fs')) ∧
  records_of (parse_modulemd (pre ++ module :: post) module_index fs) = [] ∧
  parse_modulemd (pre ++ module :: post) module_index fs
  = match parse_modulemd pre module_index fs with
    | (inr _, fs1) => (inl (AttributeError "get_all_streams"), fs1)
    | (inl e, fs1) => (inl e, fs1)
    end.
Proof.
  intros Hm. rewrite (parse_modulemd_missing _ _ _ _ _ Hm). unfold records_of.
  destruct (parse_modulemd pre module_index fs) as [[e|ret1] fs1];
    repeat split; try done.
Qed.

(** C8, as the code has it.  [parse_modulemd] does not validate the
    identity of a stream: whenever every name resolves and the libraries
    return on every stream, the call returns, and the name, stream,
    version, context and arch of each dict are those of its stream as they
    are, a [None] included. *)
Theorem C8_identity_passed_through_unchecked module_names module_index ss fs :
  streams_of module_names module_index = Some ss →
  Forall (emits stream_document) ss →
  ∃ ret fs',
    parse_modulemd module_names module_index fs = (inr ret, fs') ∧
    Forall2 (λ s r,
               md_NAME r = props_module_name s ∧
               md_STREAM r = props_stream_name s ∧
               md_VERSION r = props_version s ∧
               md_CONTEXT r = props_context s ∧
               md_ARCH r = props_arch s) ss ret.
Proof.
  intros Hss Hemits.
  destruct (parse_modulemd_returns _ _ _ fs Hss Hemits) as (ret & fs' & Hrun).
  exists ret, fs'. split; [done|].
  apply (parse_modulemd_records any_fs) in Hrun
    as (ss' & arts & Hss' & -> & Hmade); [|done].
  rewrite Hss in Hss'. injection Hss' as <-.
  eapply Forall2_impl; [apply zip_with_made, (Forall2_length _ _ _ Hmade)|].
  by intros s r [a ->].
Qed.

(** The document of a stream is what the fresh index dumps after the
    stream was added to it. *)
Lemma stream_document_inr s snippet :
  stream_document s = inr snippet →
  ∃ temp_index, add_module_stream ModuleIndex_new s = inr temp_index ∧
                dump_to_string temp_index = inr snippet.
Proof.
  unfold stream_document.
  destruct (add_module_stream ModuleIndex_new s) as [e|temp_index];
    [discriminate|]. intros Hdump. by exists temp_index.
Qed.

(** C2. Each dict that [parse_modulemd] returns has an artifact whose file
    holds, when the call returns, the snippet of the stream of the dict;
    read back, the snippet gives an index with one module and one stream
    in it, no defaults, and the name, stream, version, context and arch of
    that stream are those of the dict.  This rests on the libraries:
    temporary files are new files, the artifact is the artifact of the
    file it was given, a stream added to a new index is alone in it, and
    the reader reads back what the writer wrote for the streams of the
    call. *)
Theorem C2_snippet_holds_the_stream_alone
  (read : string → option ModuleIndex) module_names module_index fs ret fs' r :
  tempfile_fresh → artifact_keeps_file → add_module_stream_alone →
  (∀ ss, streams_of module_names module_index = Some ss →
         Forall (reads_back read) ss) →
  parse_modulemd module_names module_index fs = (inr ret, fs') →
  r ∈ ret →
  ∃ snippet temp_index n s,
    fs' !! file (md_artifact r) = Some snippet ∧
    read snippet = Some temp_index ∧
    modules temp_index
    = {[ n := {| get_module_name := n; get_all_streams := [s];
                 get_defaults := None |} ]} ∧
    default_streams temp_index = [] ∧
    stream_nsvca s = md_nsvca r.
Proof.
  intros Hfresh Hfile Halone Hread Hrun Hr.
  apply (parse_modulemd_records (⊆)) in Hrun
    as (ss & arts & Hss & -> & Hmade);
    [|intros; by apply snippet_written_subseteq].
  apply list_elem_of_lookup in Hr as [i Hr].
  apply lookup_zip_with_Some in Hr as (s & a & -> & Hs & Ha).
  destruct (Forall2_lookup_lr _ _ _ _ _ _ Hmade Hs Ha)
    as (snippet & path & fsk & Hdoc & Hart & Hsnip & Hsub).
  apply stream_document_inr in Hdoc as (temp_index & Hadd & Hdump).
  destruct (Halone _ _ Hadd) as (n & Hmods & Hdefs).
  exists snippet, temp_index, n, s. simpl. repeat split; try done.
  - rewrite (Hfile _ _ _ Hart). by eapply lookup_weaken.
  - specialize (Hread _ Hss). rewrite Forall_lookup in Hread.
    by apply (Hread _ _ Hs).
Qed.

End Streams.

(* ===================================================================== *)
(** ** Properties of [parse_defaults]                                      *)
(* ===================================================================== *)

Section DefaultStreams.
Context `{E : Externals}.

(** Each dict of a run that returns is the dict of a module of the walk
    and of the artifact made from the document of its defaults object. *)
Lemma parse_defaults_record Rel `{!PreOrder Rel} module_index fs ret fs' r :
  (∀ fs snippet, Rel fs (snippet_written fs snippet)) →
  parse_defaults module_index fs = (inr ret, fs') →
  r ∈ ret →
  ∃ mds md a,
    defaults_of_index module_index = Some mds ∧ md ∈ mds ∧
    r = uncurry defaults_of md a ∧
    made_from Rel defaults_document fs' md a.
Proof.
  intros Hwrite Hrun Hr.
  apply (parse_defaults_records Rel) in Hrun
    as (mds & arts & Hmds & -> & Hmade); [|done].
  apply list_elem_of_lookup in Hr as [i Hr].
  apply lookup_zip_with_Some in Hr as (md & a & -> & Hmd & Ha).
  exists mds, md, a. repeat split; try done.
  - by eapply list_elem_of_lookup_2.
  - by apply (Forall2_lookup_lr _ _ _ _ _ _ Hmade Hmd Ha).
Qed.





(** C7. In each dict that [parse_defaults] returns, the stream is the
    default stream of the defaults object of the module and the profiles
    are the JSON text of what the defaults object gives for that stream,
    and for that stream only: a defaults object that gives the same for the
    default stream and anything else for the other streams yields the same
    profiles. *)
Theorem C7_profiles_of_the_default_stream module_index fs ret fs' r :
  parse_defaults module_index fs = (inr ret, fs') →
  r ∈ ret →
  ∃ mds modulemd defaults,
    defaults_of_index module_index = Some mds ∧ (modulemd, defaults) ∈ mds ∧
    df_MODULE r = get_module_name modulemd ∧
    df_STREAM r = get_default_stream defaults ∧
    df_PROFILES r
    = json_dumps (get_default_profiles_for_stream defaults (df_STREAM r)) ∧
    ∀ defaults' a,
      get_default_stream defaults' = get_default_stream defaults →
      get_default_profiles_for_stream defaults' (get_default_stream defaults)
      = get_default_profiles_for_stream defaults (get_default_stream defaults) →
      df_PROFILES (defaults_of modulemd defaults' a) = df_PROFILES r.
Proof.
  intros Hrun Hr.
  destruct (parse_defaults_record any_fs _ _ _ _ _ any_fs_written Hrun Hr)
    as (mds & [modulemd defaults] & a & Hmds & Hmd & -> & _).
  exists mds, modulemd, defaults. repeat split; try done.
  intros defaults' a' Hstream Hprofiles. simpl.
  by rewrite Hstream, Hprofiles.
Qed.

(** C10. In each dict that [parse_defaults] returns, the digest is the
    sha256 of the artifact of the same dict. *)
Theorem C10_digest_is_sha256_of_own_artifact module_index fs ret fs' :
  parse_defaults module_index fs = (inr ret, fs') →
  Forall (λ r, df_DIGEST r = sha256 (df_artifact r)) ret.
Proof.
  intros Hrun. apply Forall_forall. intros r Hr.
  destruct (parse_defaults_record any_fs _ _ _ _ _ any_fs_written Hrun Hr)
    as (mds & [modulemd defaults] & a & _ & _ & -> & _).
  reflexivity.
Qed.

End DefaultStreams.

(* ===================================================================== *)
(** ** The digest of a module default                                      *)
(* ===================================================================== *)

Section Digests.
Context `{E : Externals}.

(** With a factory that hashes the file it is given, the digests of a run
    are the hashes of the documents of the walk. *)
Lemma digests_of_documents Rel H
  (mds : list (ModulemdModule * Defaults)) arts fs' :
  artifact_hashes_file H →
  Forall2 (made_from Rel defaults_document fs') mds arts →
  df_DIGEST <$> zip_with (uncurry defaults_of) mds arts
  = (λ md, match defaults_document md with
            | inr snippet => H snippet
            | inl _ => ""
            end) <$> mds.
Proof.
  intros Hhash Hmade.
  induction Hmade as [|[m d] a mds arts Hma _ IH]; [done|].
  cbn [zip_with fmap list_fmap]. f_equal; [|exact IH].
  destruct Hma as (snippet & path & fsk & Hdoc & Hart & Hsnip & _).
  rewrite Hdoc. simpl. by eapply Hhash.
Qed.

(** With fresh temporary files and a factory that keeps the file and
    hashes it, the digest of a dict is the hash of what the file of its
    artifact holds when the run returns. *)
Lemma digest_of_stored_document H module_index fs ret fs' r :
  tempfile_fresh → artifact_keeps_file → artifact_hashes_file H →
  parse_defaults module_index fs = (inr ret, fs') →
  r ∈ ret →
  ∃ snippet, fs' !! file (df_artifact r) = Some snippet ∧
             df_DIGEST r = H snippet.
Proof.
  intros Hfresh Hfile Hhash Hrun Hr.
  destruct (parse_defaults_record (⊆) _ _ _ _ _
              (λ fs0 sn, snippet_written_subseteq fs0 sn Hfresh) Hrun Hr)
    as (mds & [m d] & a & _ & _ & -> &
        snippet & path & fsk & Hdoc & Hart & Hsnip & Hsub).
  exists snippet. simpl. split.
  - rewrite (Hfile _ _ _ Hart). by eapply lookup_weaken.
  - by eapply Hhash.
Qed.


(** C9. With a factory that hashes the file it is given (and keeps it,
    the temporary files being new files): two dicts of [parse_defaults],
    of any two runs, whose artifact files hold the same bytes have the
    same digest; and two runs on the same index, in any two file systems,
    return the same digests in the same order. *)
Theorem C9_digest_determinism H :
  tempfile_fresh → artifact_keeps_file → artifact_hashes_file H →
  (∀ index1 fs1 ret1 fs1' r1 index2 fs2 ret2 fs2' r2,
     parse_defaults index1 fs1 = (inr ret1, fs1') →
     parse_defaults index2 fs2 = (inr ret2, fs2') →
     r1 ∈ ret1 → r2 ∈ ret2 →
     fs1' !! file (df_artifact r1) = fs2' !! file (df_artifact r2) →
     df_DIGEST r1 = df_DIGEST r2) ∧
  (∀ module_index fs1 ret1 fs1' fs2 ret2 fs2',
     parse_defaults module_index fs1 = (inr ret1, fs1') →
     parse_defaults module_index fs2 = (inr ret2, fs2') →
     df_DIGEST <$> ret1 = df_DIGEST <$> ret2).
Proof.
  intros Hfresh Hfile Hhash. split.
  - intros index1 fs1 ret1 fs1' r1 index2 fs2 ret2 fs2' r2
      Hrun1 Hrun2 Hr1 Hr2 Hsame.
    destruct (digest_of_stored_document H _ _ _ _ _ Hfresh Hfile Hhash Hrun1 Hr1)
      as (sn1 & Hsn1 & ->).
    destruct (digest_of_stored_document H _ _ _ _ _ Hfresh Hfile Hhash Hrun2 Hr2)
      as (sn2 & Hsn2 & ->).
    rewrite Hsn1, Hsn2 in Hsame. by injection Hsame as ->.
  - intros module_index fs1 ret1 fs1' fs2 ret2 fs2' Hrun1 Hrun2.
    apply (parse_defaults_records any_fs) in Hrun1
      as (mds1 & arts1 & Hmds1 & -> & Hmade1); [|done].
    apply (parse_defaults_records any_fs) in Hrun2
      as (mds2 & arts2 & Hmds2 & -> & Hmade2); [|done].
    rewrite Hmds1 in Hmds2. injection Hmds2 as <-.
    by rewrite (digests_of_documents _ H _ _ _ Hhash Hmade1),
               (digests_of_documents _ H _ _ _ Hhash Hmade2).
Qed.

End Digests.

(* ===================================================================== *)
(** ** The properties on the example index                                 *)
(* ===================================================================== *)

Lemma nodejs_streams_run_eq :
  parse_modulemd (E := Sim.externals) ["nodejs"] example_index ∅
  = (inr (records_of nodejs_streams_run), nodejs_streams_run.2).
Proof. vm_compute. reflexivity. Qed.

Lemma example_defaults_run_eq :
  parse_defaults (E := Sim.externals) example_index ∅
  = (inr (records_of example_defaults_run), example_defaults_run.2).
Proof. vm_compute. reflexivity. Qed.

Lemma example_defaults_rerun_eq :
  parse_defaults (E := Sim.externals) example_index example_defaults_run.2
  = (inr (records_of example_defaults_rerun), example_defaults_rerun.2).
Proof. vm_compute. reflexivity. Qed.

Lemma nodejs_streams_of :
  streams_of ["nodejs"] example_index = Some [nodejs_10; nodejs_12].
Proof. vm_compute. reflexivity. Qed.

Lemma nodejs_streams_emit :
  Forall (emits (E := Sim.externals) (stream_document (E := Sim.externals)))
         [nodejs_10; nodejs_12].
Proof. repeat constructor; apply sim_stream_emits; simpl; eauto. Qed.

Lemma nodejs_streams_read_back ss :
  streams_of ["nodejs"] example_index = Some ss →
  Forall (reads_back (E := Sim.externals) (Sim.read_in known_documents)) ss.
Proof.
  rewrite nodejs_streams_of. intros [= <-].
  constructor; [|constructor; [|constructor]].
  all: intros temp_index snippet Hadd Hdump.
  all: vm_compute in Hadd; injection Hadd as <-.
  all: vm_compute in Hdump; injection Hdump as <-.
  all: vm_compute; reflexivity.
Qed.


(** C2 on the dict of [nodejs:12]. *)
Lemma C2_snippet_holds_the_stream_alone_witness :
  ∃ r, records_of nodejs_streams_run !! 1 = Some r ∧
  ∃ snippet temp_index n s,
    nodejs_streams_run.2 !! file (md_artifact r) = Some snippet ∧
    Sim.read_in known_documents snippet = Some temp_index ∧
    modules temp_index
    = {[ n := {| get_module_name := n; get_all_streams := [s];
                 get_defaults := None |} ]} ∧
    default_streams temp_index = [] ∧
    stream_nsvca s = md_nsvca r.
Proof.
  eexists. split; [reflexivity|].
  apply (C2_snippet_holds_the_stream_alone (E := Sim.externals)
           (Sim.read_in known_documents) ["nodejs"] example_index ∅
           (records_of nodejs_streams_run) nodejs_streams_run.2).
  - apply sim_tempfile_fresh.
  - apply sim_artifact_keeps_file.
  - apply sim_add_module_stream_alone.
  - apply nodejs_streams_read_back.
  - exact nodejs_streams_run_eq.
  - apply (list_elem_of_lookup_2 _ 1). reflexivity.
Defined.



(** C4 on the two streams of [nodejs]. *)
Lemma C4_records_in_index_order_witness :
  ∃ ss, streams_of ["nodejs"] example_index = Some ss ∧
        md_nsvca <$> records_of nodejs_streams_run = stream_nsvca <$> ss ∧
        md_ARTIFACTS <$> records_of nodejs_streams_run
        = (λ s, Sim.dumps (JArr (JStr <$> get_rpm_artifacts s))) <$> ss.
Proof.
  apply (proj1 (C4_records_in_index_order (E := Sim.externals)
                  ["nodejs"] example_index ∅)
           (records_of nodejs_streams_run) nodejs_streams_run.2).
  exact nodejs_streams_run_eq.
Defined.

(** C5 on a list of names with a missing module in the middle. *)
Lemma C5_missing_module_fails_whole_call_witness :
  parse_modulemd (E := Sim.externals)
    (["nodejs"] ++ "missing_module" :: ["postgresql"])%list example_index ∅
  = (inl (AttributeError "get_all_streams"), nodejs_streams_run.2).
Proof.
  destruct (C5_missing_module_fails_whole_call (E := Sim.externals)
              ["nodejs"] "missing_module" ["postgresql"] example_index ∅)
    as (_ & _ & Hrun); [reflexivity|].
  rewrite Hrun, nodejs_streams_run_eq. reflexivity.
Defined.


(** C7 on the dict of the defaults of [nodejs]. *)
Lemma C7_profiles_of_the_default_stream_witness :
  ∃ r, records_of example_defaults_run !! 0 = Some r ∧
  ∃ mds modulemd defaults,
    defaults_of_index example_index = Some mds ∧ (modulemd, defaults) ∈ mds ∧
    df_MODULE r = get_module_name modulemd ∧
    df_STREAM r = get_default_stream defaults ∧
    df_PROFILES r
    = Sim.dumps (get_default_profiles_for_stream defaults (df_STREAM r)) ∧
    ∀ defaults' a,
      get_default_stream defaults' = get_default_stream defaults →
      get_default_profiles_for_stream defaults' (get_default_stream defaults)
      = get_default_profiles_for_stream defaults (get_default_stream defaults) →
      df_PROFILES (defaults_of (E := Sim.externals) modulemd defaults' a)
      = df_PROFILES r.
Proof.
  eexists. split; [reflexivity|].
  apply (C7_profiles_of_the_default_stream (E := Sim.externals)
           example_index ∅ (records_of example_defaults_run)
           example_defaults_run.2).
  - exact example_defaults_run_eq.
  - apply (list_elem_of_lookup_2 _ 0). reflexivity.
Defined.

(** C8 on the two streams of [nodejs], of which [nodejs:12] has no arch. *)
Lemma C8_identity_passed_through_unchecked_witness :
  ∃ ret fs',
    parse_modulemd (E := Sim.externals) ["nodejs"] example_index ∅
    = (inr ret, fs') ∧
    Forall2 (λ s r,
               md_NAME r = props_module_name s ∧
               md_STREAM r = props_stream_name s ∧
               md_VERSION r = props_version s ∧
               md_CONTEXT r = props_context s ∧
               md_ARCH r = props_arch s) [nodejs_10; nodejs_12] ret.
Proof.
  apply (C8_identity_passed_through_unchecked (E := Sim.externals)
           ["nodejs"] example_index [nodejs_10; nodejs_12] ∅).
  - exact nodejs_streams_of.
  - exact nodejs_streams_emit.
Defined.

(** The stream [nodejs:12] gives no arch, and the call returns its dict
    with [None] for the arch: no error is raised. *)
Lemma C8_null_arch_is_emitted :
  streams_of ["nodejs"] example_index = Some [nodejs_10; nodejs_12] ∧
  props_arch nodejs_12 = None ∧
  ∃ ret fs',
    parse_modulemd (E := Sim.externals) ["nodejs"] example_index ∅
    = (inr ret, fs') ∧
    md_nsvca <$> ret
    = [(Some "nodejs", Some "10", 20190801%N, Some "6c81f848", Some "x86_64");
       (Some "nodejs", Some "12", 20190801%N, Some "6c81f848", None)].
Proof.
  split; [exact nodejs_streams_of|]. split; [reflexivity|].
  exists (records_of nodejs_streams_run), nodejs_streams_run.2.
  split; [exact nodejs_streams_run_eq|]. vm_compute. reflexivity.
Qed.

(** C9 on the example index, extracted twice in a row. *)
Lemma C9_digest_determinism_witness :
  df_DIGEST <$> records_of example_defaults_run
  = df_DIGEST <$> records_of example_defaults_rerun.
Proof.
  apply (proj2 (C9_digest_determinism (E := Sim.externals) Sim.digest
                  (sim_tempfile_fresh _) sim_artifact_keeps_file
                  sim_artifact_hashes_file)
           example_index ∅ _ example_defaults_run.2
           example_defaults_run.2 _ example_defaults_rerun.2).
  - exact example_defaults_run_eq.
  - exact example_defaults_rerun_eq.
Defined.

(** C10 on the example index. *)
Lemma C10_digest_is_sha256_of_own_artifact_witness :
  Forall (λ r, df_DIGEST r = sha256 (df_artifact r))
         (records_of example_defaults_run).
Proof.
  apply (C10_digest_is_sha256_of_own_artifact (E := Sim.externals)
           example_index ∅ _ example_defaults_run.2).
  exact example_defaults_run_eq.
Defined.

(* ===================================================================== *)
(** ** Further properties of the loops                                     *)
(* ===================================================================== *)

(** A loop whose body only appends to the list it is given does the same
    on a longer list, in front of which it leaves what was there. *)
Lemma for_in_prepend {A R} (xs : list A) (body : A → list R → M (list R)) :
  (∀ x p acc fs,
     body x (p ++ acc)%list fs
     = match body x acc fs with
       | (inr ret, fs1) => (inr (p ++ ret)%list, fs1)
       | (inl e, fs1) => (inl e, fs1)
       end) →
  ∀ p acc fs,
    for_in xs body (p ++ acc)%list fs
    = match for_in xs body acc fs with
      | (inr ret, fs1) => (inr (p ++ ret)%list, fs1)
      | (inl e, fs1) => (inl e, fs1)
      end.
Proof.
  intros Hbody. induction xs as [|x xs IH]; intros p acc fs; simpl.
  - reflexivity.
  - unfold mbind, M_bind. rewrite Hbody.
    destruct (body x acc fs) as [[e|acc1] fs1]; [done|]. apply IH.
Qed.

Section MoreEmit.
Context `{E : Externals}.

Lemma emit_inl {U R} (doc : U → exception + string) (mk : U → Artifact → R)
  u ret fs e fs' :
  emit doc mk u ret fs = (inl e, fs') ↔
  (doc u = inl e ∧ fs' = fs) ∨
  (∃ snippet,
     doc u = inr snippet ∧ fs' = snippet_written fs snippet ∧
     init_and_validate (NamedTemporaryFile fs) fs' = inl e).
Proof.
  unfold emit, call, mbind, M_bind.
  destruct (doc u) as [e1|snippet].
  - split.
    + intros [= -> ->]. by left.
    + intros [[[= ->] ->]|(sn & ? & _)]; [done|discriminate].
  - rewrite create_snippet_run.
    destruct (init_and_validate _ (snippet_written fs snippet)) as [e1|a] eqn:Ha.
    + split.
      * intros [= -> <-]. right. by exists snippet.
      * intros [[? _]|(sn & [= <-] & -> & Hfail)]; [discriminate|].
        rewrite Ha in Hfail. by injection Hfail as ->.
    + split; [discriminate|].
      intros [[? _]|(sn & [= <-] & -> & Hfail)]; [discriminate|].
      rewrite Ha in Hfail. discriminate.
Qed.

Lemma emit_prepend {U R} (doc : U → exception + string) (mk : U → Artifact → R)
  u p acc fs :
  emit doc mk u (p ++ acc)%list fs
  = match emit doc mk u acc fs with
    | (inr ret, fs1) => (inr (p ++ ret)%list, fs1)
    | (inl e, fs1) => (inl e, fs1)
    end.
Proof.
  unfold emit, call, mbind, M_bind. destruct (doc u) as [e|snippet]; [done|].
  rewrite create_snippet_run.
  destruct (init_and_validate _ _) as [e|a]; [done|].
  unfold mret, M_ret. by rewrite <- app_assoc.
Qed.

(** The file system a returning loop leaves: the snippets of the units,
    written one after the other. *)
Lemma emit_loop_fs {U R} (doc : U → exception + string) (mk : U → Artifact → R)
  us ret fs ret' fs' :
  for_in us (emit doc mk) ret fs = (inr ret', fs') →
  ∃ snippets,
    Forall2 (λ u snippet, doc u = inr snippet) us snippets ∧
    fs' = foldl snippet_written fs snippets ∧
    length ret' = length ret + length us.
Proof.
  intros Hrun.
  pose (I := λ (done : list U) (acc : list R) (fsc : FS),
          ∃ snippets,
            Forall2 (λ u snippet, doc u = inr snippet) done snippets ∧
            fsc = foldl snippet_written fs snippets ∧
            length acc = length ret + length done).
  apply (for_in_invariant I us (emit doc mk) ret fs ret' fs'); [| |exact Hrun].
  - exists []. repeat split; [constructor|simpl; lia].
  - intros done u acc fsc acc' fsc' (snippets & Hdocs & -> & Hlen) Hbody.
    apply emit_inr in Hbody as (snippet & a & Hdoc & -> & _ & ->).
    exists (snippets ++ [snippet])%list. repeat split.
    + apply Forall2_app; [done|]. by repeat constructor.
    + by rewrite foldl_app.
    + rewrite !length_app, Hlen. simpl. lia.
Qed.

(** Fresh temporary files: what was there stays, and each snippet adds
    one file. *)
Lemma snippets_written_fresh (fs : FS) snippets :
  tempfile_fresh →
  fs ⊆ foldl snippet_written fs snippets ∧
  size (foldl snippet_written fs snippets) = size fs + length snippets.
Proof.
  intros Hfresh. revert fs. induction snippets as [|sn sns IH]; intros fs.
  - simpl. split; [done|lia].
  - cbn [foldl]. destruct (IH (snippet_written fs sn)) as [Hsub Hsize]. split.
    + etrans; [by apply snippet_written_subseteq|exact Hsub].
    + rewrite Hsize. unfold snippet_written. rewrite insert_insert_eq.
      rewrite map_size_insert_None by apply Hfresh. simpl. lia.
Qed.

(** Whatever its outcome, a loop leaves the files that were there. *)
Lemma emit_loop_keeps_files {U R} (doc : U → exception + string)
  (mk : U → Artifact → R) us ret fs :
  tempfile_fresh → fs ⊆ (for_in us (emit doc mk) ret fs).2.
Proof.
  intros Hfresh. revert ret fs. induction us as [|u us IH]; intros ret fs.
  - done.
  - simpl. unfold mbind, M_bind.
    destruct (emit doc mk u ret fs) as [[e|ret1] fs1] eqn:Hbody.
    + simpl. apply emit_inl in Hbody as [[_ ->]|(sn & _ & -> & _)]; [done|].
      by apply snippet_written_subseteq.
    + apply emit_inr in Hbody as (sn & a & _ & -> & _ & _).
      etrans; [by apply snippet_written_subseteq|apply IH].
Qed.

(** With fresh temporary files and a factory that keeps the file it is
    given, the artifacts of a returning loop have files of their own, none
    of which was there before. *)
Lemma emit_loop_artifact_files {U R} (doc : U → exception + string)
  (mk : U → Artifact → R) us ret fs ret' fs' :
  tempfile_fresh → artifact_keeps_file →
  for_in us (emit doc mk) ret fs = (inr ret', fs') →
  ∃ arts, ret' = (ret ++ zip_with mk us arts)%list ∧
          length arts = length us ∧
          NoDup (file <$> arts) ∧
          Forall (λ a, fs !! file a = None) arts.
Proof.
  intros Hfresh Hfile Hrun.
  pose (I := λ (done : list U) (acc : list R) (fsc : FS),
          fs ⊆ fsc ∧
          ∃ arts, acc = (ret ++ zip_with mk done arts)%list ∧
                  length arts = length done ∧
                  NoDup (file <$> arts) ∧
                  Forall (λ a, fs !! file a = None ∧ is_Some (fsc !! file a)) arts).
  cut (I us ret' fs').
  { intros (_ & arts & -> & Hlen & Hnodup & Hall). exists arts.
    repeat split; try done. eapply Forall_impl; [exact Hall|]. by intros a [? _]. }
  apply (for_in_invariant I us (emit doc mk) ret fs ret' fs'); [| |exact Hrun].
  - split; [done|]. exists []. repeat split; try constructor.
    by rewrite app_nil_r.
  - intros done u acc fsc acc' fsc' (Hsub & arts & -> & Hlen & Hnodup & Hall) Hbody.
    apply emit_inr in Hbody as (snippet & a & Hdoc & -> & Hart & ->).
    pose proof (Hfile _ _ _ Hart) as Hfa.
    pose proof (snippet_written_subseteq fsc snippet Hfresh) as Hsub'.
    split; [by etrans|].
    exists (arts ++ [a])%list. repeat split.
    + rewrite zip_with_app by done. by rewrite <- app_assoc.
    + rewrite !length_app, Hlen. done.
    + rewrite fmap_app. apply NoDup_app. repeat split; [done| |].
      * intros f Hf [->|Hin]%elem_of_cons; [|by apply elem_of_nil in Hin].
        apply list_elem_of_fmap in Hf as (a' & Hfa' & Ha').
        rewrite Forall_forall in Hall. destruct (Hall _ Ha') as [_ [c Hc]].
        rewrite <- Hfa', Hfa, (Hfresh fsc) in Hc. discriminate.
      * apply NoDup_singleton.
    + apply Forall_app. split.
      * eapply Forall_impl; [exact Hall|]. intros a' [Hnew [c Hc]].
        split; [done|]. exists c. by eapply lookup_weaken.
      * repeat constructor.
        -- rewrite Hfa. destruct (fs !! NamedTemporaryFile fsc) as [c|] eqn:Hc;
             [|done].
           pose proof (lookup_weaken _ _ _ _ Hc Hsub) as Hc'.
           rewrite (Hfresh fsc) in Hc'. discriminate.
        -- rewrite Hfa. rewrite snippet_written_lookup. eauto.
Qed.

End MoreEmit.

(* ===================================================================== *)
(** ** The keys of the flattened dependencies                              *)
(* ===================================================================== *)

Lemma keys_dict_set {V} k (v : V) d :
  keys (dict_set k v d)
  = if decide (k ∈ keys d) then keys d else (keys d ++ [k])%list.
Proof.
  unfold keys. induction d as [|[k' v'] d IH]; cbn [dict_set fmap list_fmap fst].
  - destruct (decide (k ∈ [])) as [Hin|]; [by apply elem_of_nil in Hin|done].
  - destruct (decide (k' = k)) as [->|Hne]; cbn [fmap list_fmap fst].
    + destruct (decide (k ∈ k :: d.*1)) as [|Hn]; [done|].
      exfalso. apply Hn. by left.
    + rewrite IH.
      destruct (decide (k ∈ d.*1)) as [Hin|Hnin],
               (decide (k ∈ k' :: d.*1)) as [Hin'|Hnin']; try done.
      * exfalso. apply Hnin'. by right.
      * apply elem_of_cons in Hin' as [->|?]; done.
Qed.

Lemma dict_get_is_Some {V} k (d : dict V) : is_Some (dict_get k d) ↔ k ∈ keys d.
Proof.
  unfold keys. induction d as [|[k' v'] d IH]; cbn [dict_get fmap list_fmap fst].
  - split; [by intros [? ?]|intros Hin; by apply elem_of_nil in Hin].
  - destruct (decide (k' = k)) as [->|Hne].
    + split; [intros _; by left|eauto].
    + rewrite IH. split; [by right|].
      by intros [->|?]%elem_of_cons.
Qed.

(** Keys met one after the other: a key that is there stays where it is, a
    new key goes to the end. *)
Lemma keys_met (seen ks : list string) :
  foldl (λ seen k, if decide (k ∈ seen) then seen else (seen ++ [k])%list) seen ks
  = (seen ++ filter (λ k, k ∉ seen) (first_occurrences ks))%list.
Proof.
  revert seen. induction ks as [|k ks IH]; intros seen;
    cbn [foldl first_occurrences].
  - by rewrite filter_nil, app_nil_r.
  - rewrite IH. destruct (decide (k ∈ seen)) as [Hin|Hnin].
    + rewrite filter_cons_False by (by intros Hn; apply Hn).
      rewrite list_filter_filter. f_equal. apply list_filter_iff.
      intros y. split; [|by intros [? _]]. intros Hy. split; [done|].
      by intros ->.
    + rewrite filter_cons_True by done. rewrite list_filter_filter.
      rewrite <- app_assoc. simpl. do 2 f_equal. apply list_filter_iff.
      intros y. rewrite elem_of_app, list_elem_of_singleton. tauto.
Qed.

Lemma first_occurrences_elem_of l k : k ∈ first_occurrences l ↔ k ∈ l.
Proof.
  induction l as [|x l IH]; cbn [first_occurrences]; [done|].
  rewrite !elem_of_cons, list_elem_of_filter, IH.
  destruct (decide (k = x)); tauto.
Qed.

Lemma first_occurrences_NoDup l : NoDup (first_occurrences l).
Proof.
  induction l as [|x l IH]; cbn [first_occurrences]; constructor.
  - rewrite list_elem_of_filter. by intros [Hne _].
  - by apply NoDup_filter.
Qed.

Lemma flatten_keys_from (d : dict (list string)) (deps : list Dependencies) :
  keys (foldl (λ dependencies dep,
                 foldl (λ dependencies dependency,
                          dict_set dependency
                                   (get_runtime_streams dep dependency)
                                   dependencies)
                       dependencies (get_runtime_modules dep)) d deps)
  = foldl (λ seen k, if decide (k ∈ seen) then seen else (seen ++ [k])%list)
          (keys d) (deps ≫= get_runtime_modules).
Proof.
  revert d. induction deps as [|dep deps IH]; intros d; cbn [foldl]; [done|].
  rewrite IH, bind_cons, foldl_app. f_equal.
  generalize (get_runtime_modules dep) as ks. clear. intros ks. revert d.
  induction ks as [|k ks IHk]; intros d; cbn [foldl]; [done|].
  by rewrite IHk, keys_dict_set.
Qed.

(** X10. The keys of the flattened dependencies are the required modules
    that the declarations of the stream name, each once, in the order in
    which the declarations first name them; a module that no declaration
    names has no entry. *)
Theorem flatten_dependencies_keys (dependencies_list : list Dependencies) :
  keys (flatten_dependencies dependencies_list)
  = first_occurrences (dependencies_list ≫= get_runtime_modules) ∧
  NoDup (keys (flatten_dependencies dependencies_list)) ∧
  ∀ k, is_Some (dict_get k (flatten_dependencies dependencies_list)) ↔
       ∃ dep, dep ∈ dependencies_list ∧ k ∈ get_runtime_modules dep.
Proof.
  assert (Hkeys : keys (flatten_dependencies dependencies_list)
                  = first_occurrences (dependencies_list ≫= get_runtime_modules)).
  { unfold flatten_dependencies. rewrite flatten_keys_from, keys_met.
    cbn [keys fmap list_fmap app].
    induction (first_occurrences _) as [|k l IH]; [done|].
    rewrite filter_cons_True by apply not_elem_of_nil. by rewrite IH. }
  split; [exact Hkeys|]. split.
  - rewrite Hkeys. apply first_occurrences_NoDup.
  - intros k. rewrite dict_get_is_Some, Hkeys, first_occurrences_elem_of.
    rewrite list_elem_of_bind. split; intros (dep & ? & ?); by exists dep.
Qed.

(* ===================================================================== *)
(** ** Further properties of [parse_modulemd] and [parse_defaults]         *)
(* ===================================================================== *)

Section MoreWalks.
Context `{E : Externals}.

(** Whatever the outcome of a loop whose body leaves the files that were
    there, the loop leaves them. *)
Lemma for_in_keeps_files {A S} (xs : list A) (body : A → S → M S) acc (fs : FS) :
  (∀ x acc (fs : FS), fs ⊆ (body x acc fs).2) →
  fs ⊆ (for_in xs body acc fs).2.
Proof.
  intros Hbody. revert acc fs. induction xs as [|x xs IH]; intros acc fs; [done|].
  simpl. unfold mbind, M_bind. specialize (Hbody x acc fs).
  destruct (body x acc fs) as [[e|acc1] fs1]; [done|].
  etrans; [exact Hbody|apply IH].
Qed.

Lemma parse_modulemd_stream_prepend s p acc fs :
  parse_modulemd_stream s (p ++ acc)%list fs
  = match parse_modulemd_stream s acc fs with
    | (inr ret, fs1) => (inr (p ++ ret)%list, fs1)
    | (inl e, fs1) => (inl e, fs1)
    end.
Proof. rewrite !parse_modulemd_stream_emit. apply emit_prepend. Qed.

(** X1. Extracting the streams of a list of names that is two lists put
    together is extracting those of the first list and then, in the file
    system this left, those of the second: the dicts are those of the
    first run followed by those of the second, and an exception of the
    first run, or else of the second, is the exception of the whole. *)
Theorem parse_modulemd_app names1 names2 module_index fs :
  parse_modulemd (names1 ++ names2) module_index fs
  = match parse_modulemd names1 module_index fs with
    | (inl e, fs1) => (inl e, fs1)
    | (inr ret1, fs1) =>
        match parse_modulemd names2 module_index fs1 with
        | (inl e, fs2) => (inl e, fs2)
        | (inr ret2, fs2) => (inr (ret1 ++ ret2)%list, fs2)
        end
    end.
Proof.
  unfold parse_modulemd. rewrite for_in_app. unfold mbind at 1, M_bind at 1.
  destruct (for_in names1 _ [] fs) as [[e|ret1] fs1]; [done|].
  rewrite <- (app_nil_r ret1) at 1.
  rewrite for_in_prepend.
  - by destruct (for_in names2 _ [] fs1) as [[e|ret2] fs2].
  - clear. intros module p acc fs.
    destruct (get_module module_index module) as [m|]; [|done].
    unfold_M. apply for_in_prepend. apply parse_modulemd_stream_prepend.
Qed.

(** X2. With temporary files that are new files, a call of
    [parse_modulemd] that returns has written the snippets of the streams
    of the walk, one file after the other, and nothing else: the file
    system has one file more for each dict returned. *)
Theorem parse_modulemd_writes_one_file_per_dict
  module_names module_index fs ret fs' :
  tempfile_fresh →
  parse_modulemd module_names module_index fs = (inr ret, fs') →
  ∃ ss snippets,
    streams_of module_names module_index = Some ss ∧
    Forall2 (λ s snippet, stream_document s = inr snippet) ss snippets ∧
    fs' = foldl snippet_written fs snippets ∧
    length ret = length ss ∧
    size fs' = size fs + length ret.
Proof.
  intros Hfresh Hrun.
  destruct (parse_modulemd_inr_resolved _ _ _ _ _ Hrun) as [ms Hms].
  rewrite (parse_modulemd_resolved _ _ _ _ Hms) in Hrun.
  apply emit_loop_fs in Hrun as (snippets & Hdocs & -> & Hlen).
  exists (ms ≫= get_all_streams), snippets. unfold streams_of. rewrite Hms.
  simpl in Hlen. repeat split; try done.
  rewrite (proj2 (snippets_written_fresh fs snippets Hfresh)).
  by rewrite Hlen, (Forall2_length _ _ _ Hdocs).
Qed.

(** X3. With temporary files that are new files, a call of
    [parse_defaults] that returns has written the snippets of the listed
    modules that hold a defaults object, one file after the other, and
    nothing for the other listed modules: the file system has one file
    more for each dict returned. *)
Theorem parse_defaults_writes_one_file_per_dict module_index fs ret fs' :
  tempfile_fresh →
  parse_defaults module_index fs = (inr ret, fs') →
  ∃ mds snippets,
    defaults_of_index module_index = Some mds ∧
    Forall2 (λ md snippet, defaults_document md = inr snippet) mds snippets ∧
    fs' = foldl snippet_written fs snippets ∧
    length ret = length mds ∧
    size fs' = size fs + length ret.
Proof.
  intros Hfresh Hrun.
  destruct (parse_defaults_inr_resolved _ _ _ _ Hrun) as [ms Hms].
  unfold parse_defaults in Hrun. rewrite (parse_defaults_walk _ _ _ _ _ Hms) in Hrun.
  apply emit_loop_fs in Hrun as (snippets & Hdocs & -> & Hlen).
  exists (omap with_defaults ms), snippets. unfold defaults_of_index. rewrite Hms.
  simpl in Hlen. repeat split; try done.
  rewrite (proj2 (snippets_written_fresh fs snippets Hfresh)).
  by rewrite Hlen, (Forall2_length _ _ _ Hdocs).
Qed.

(** X4. With temporary files that are new files, neither function
    changes or removes a file that was there, whether it returns or
    raises. *)
Theorem existing_files_are_kept :
  tempfile_fresh →
  (∀ module_names module_index (fs : FS),
     fs ⊆ (parse_modulemd module_names module_index fs).2) ∧
  (∀ module_index (fs : FS), fs ⊆ (parse_defaults module_index fs).2).
Proof.
  intros Hfresh. split.
  - intros module_names module_index fs. unfold parse_modulemd.
    apply for_in_keeps_files. clear fs. intros module acc fs.
    destruct (get_module module_index module) as [m|]; [|done].
    unfold_M.
    rewrite (for_in_ext _ _ _ _ _ parse_modulemd_stream_emit).
    by apply emit_loop_keeps_files.
  - intros module_index fs. unfold parse_defaults.
    apply for_in_keeps_files. clear fs. intros module acc fs.
    rewrite parse_defaults_module_run.
    destruct (get_module module_index module) as [m|]; [|done].
    destruct (get_defaults m) as [d|]; [|done].
    destruct (emit defaults_document (uncurry defaults_of) (m, d) acc fs)
      as [[e|ret1] fs1] eqn:Hbody; simpl.
    + apply emit_inl in Hbody as [[_ ->]|(sn & _ & -> & _)]; [done|].
      by apply snippet_written_subseteq.
    + apply emit_inr in Hbody as (sn & a & _ & -> & _ & _).
      by apply snippet_written_subseteq.
Qed.

(** X5. With temporary files that are new files and a factory that keeps
    the file it is given, the artifacts of the dicts of a call that
    returns have files of their own: no two dicts share a file, and none
    of the files was there before the call. *)
Theorem artifact_files_are_new_and_distinct :
  tempfile_fresh → artifact_keeps_file →
  (∀ module_names module_index fs ret fs',
     parse_modulemd module_names module_index fs = (inr ret, fs') →
     NoDup ((λ r, file (md_artifact r)) <$> ret) ∧
     Forall (λ r, fs !! file (md_artifact r) = None) ret) ∧
  (∀ module_index fs ret fs',
     parse_defaults module_index fs = (inr ret, fs') →
     NoDup ((λ r, file (df_artifact r)) <$> ret) ∧
     Forall (λ r, fs !! file (df_artifact r) = None) ret).
Proof.
  intros Hfresh Hfile.
  assert (Hzip : ∀ U R (mk : U → Artifact → R) (art : R → Artifact)
                   (us : list U) arts,
             (∀ u a, art (mk u a) = a) → length arts = length us →
             art <$> zip_with mk us arts = arts).
  { intros U R mk art us. induction us as [|u us IH]; intros [|a arts] Hart Hlen;
      try discriminate; [done|].
    cbn [zip_with fmap list_fmap]. rewrite Hart. f_equal.
    apply IH; [done|]. by injection Hlen. }
  split.
  - intros module_names module_index fs ret fs' Hrun.
    destruct (parse_modulemd_inr_resolved _ _ _ _ _ Hrun) as [ms Hms].
    rewrite (parse_modulemd_resolved _ _ _ _ Hms) in Hrun.
    apply emit_loop_artifact_files in Hrun
      as (arts & -> & Hlen & Hnodup & Hnew); [|done..].
    simpl. split.
    + rewrite (list_fmap_compose md_artifact file).
      by rewrite (Hzip _ _ modulemd_of md_artifact).
    + apply Forall_fmap with (f := md_artifact) (P := λ a, fs !! file a = None).
      by rewrite (Hzip _ _ modulemd_of md_artifact).
  - intros module_index fs ret fs' Hrun.
    destruct (parse_defaults_inr_resolved _ _ _ _ Hrun) as [ms Hms].
    unfold parse_defaults in Hrun.
    rewrite (parse_defaults_walk _ _ _ _ _ Hms) in Hrun.
    apply emit_loop_artifact_files in Hrun
      as (arts & -> & Hlen & Hnodup & Hnew); [|done..].
    simpl. split.
    + rewrite (list_fmap_compose df_artifact file).
      rewrite (Hzip _ _ (uncurry defaults_of) df_artifact); [done| |done].
      by intros [m d] a.
    + apply Forall_fmap with (f := df_artifact) (P := λ a, fs !! file a = None).
      rewrite (Hzip _ _ (uncurry defaults_of) df_artifact); [done| |done].
      by intros [m d] a.
Qed.

(** X8. A listed module that the index does not hold makes
    [parse_defaults] raise the attribute error of [get_defaults] on
    [None], after the modules listed before it and before any listed
    after it, unless the walk of those before it had already raised; no
    list of dicts is returned. *)
Theorem parse_defaults_missing_listed_module pre k v post module_index fs :
  get_default_streams module_index = (pre ++ (k, v) :: post)%list →
  get_module module_index k = None →
  parse_defaults module_index fs
  = match parse_defaults {| modules := modules module_index;
                            default_streams := pre |} fs with
    | (inr _, fs1) => (inl (AttributeError "get_defaults"), fs1)
    | (inl e, fs1) => (inl e, fs1)
    end.
Proof.
  intros Hlist Hk. unfold parse_defaults.
  unfold get_default_streams at 2. cbn [default_streams].
  rewrite Hlist. unfold keys. rewrite fmap_app, fmap_cons. cbn [fst].
  rewrite for_in_app. unfold mbind, M_bind.
  rewrite (for_in_ext (pre.*1) _
             (parse_defaults_module {| modules := modules module_index;
                                       default_streams := pre |}))
    by (intros; by rewrite !parse_defaults_module_run).
  destruct (for_in (pre.*1) _ [] fs) as [[e|acc] fs1]; [done|].
  cbn [for_in]. unfold mbind, M_bind.
  by rewrite parse_defaults_module_run, Hk.
Qed.

(** X9. [parse_defaults] returns, with one dict for each listed module
    that holds a defaults object, whenever every listed module resolves
    and, for each of those that hold a defaults object, the libraries
    write its snippet and make an artifact of it. *)
Theorem parse_defaults_returns module_index mds fs :
  defaults_of_index module_index = Some mds →
  Forall (emits defaults_document) mds →
  ∃ ret fs',
    parse_defaults module_index fs = (inr ret, fs') ∧
    Forall2 (λ md r, ∃ a, r = defaults_of md.1 md.2 a) mds ret.
Proof.
  unfold defaults_of_index. intros Hmds Hemits.
  destruct (mapM (get_module module_index) _) as [ms|] eqn:Hms; [|discriminate].
  injection Hmds as <-.
  destruct (emit_loop_returns defaults_document (uncurry defaults_of)
              (omap with_defaults ms) [] fs Hemits) as (ret & fs' & Hrun).
  exists ret, fs'. unfold parse_defaults.
  rewrite (parse_defaults_walk _ _ _ _ _ Hms). split; [done|].
  apply emit_loop_records in Hrun as (arts & -> & Hmade). simpl.
  eapply Forall2_impl; [apply zip_with_made, (Forall2_length _ _ _ Hmade)|].
  by intros [m d] r [a ->]; exists a.
Qed.

End MoreWalks.

Section MoreSnippets.
Context `{E : Externals}.

(** X11. With temporary files that are new files, a call of
    [_create_snippet] that returns an artifact has left one new file,
    which holds the snippet, and has touched no other file.  If moreover
    the factory keeps the file it is given, the artifact names that file;
    and if the factory hashes the file it is given, the artifact carries
    the hash of the snippet. *)
Theorem create_snippet_file_and_artifact snippet_string (fs : FS) a fs' :
  tempfile_fresh →
  _create_snippet snippet_string fs = (inr a, fs') →
  fs !! NamedTemporaryFile fs = None ∧
  fs' = <[NamedTemporaryFile fs := snippet_string]> fs ∧
  size fs' = S (size fs) ∧
  fs ⊆ fs' ∧
  (artifact_keeps_file →
   fs' !! file a = Some snippet_string ∧ fs !! file a = None) ∧
  (∀ H, artifact_hashes_file H → sha256 a = H snippet_string).
Proof.
  intros Hfresh. rewrite create_snippet_run. intros [= Ha <-].
  assert (Hfs : snippet_written fs snippet_string
                = <[NamedTemporaryFile fs := snippet_string]> fs)
    by (unfold snippet_written; apply insert_insert_eq).
  split; [apply Hfresh|]. split; [done|]. split; [|split; [|split]].
  - rewrite Hfs. by apply map_size_insert_None.
  - by apply snippet_written_subseteq.
  - intros Hfile. rewrite (Hfile _ _ _ Ha).
    split; [apply snippet_written_lookup|apply Hfresh].
  - intros H Hhash. eapply Hhash; [exact Ha|apply snippet_written_lookup].
Qed.

Lemma parse_defaults_module_prepend module_index module p acc fs :
  parse_defaults_module module_index module (p ++ acc)%list fs
  = match parse_defaults_module module_index module acc fs with
    | (inr ret, fs1) => (inr (p ++ ret)%list, fs1)
    | (inl e, fs1) => (inl e, fs1)
    end.
Proof.
  rewrite !parse_defaults_module_run.
  destruct (get_module module_index module) as [m|]; [|done].
  destruct (get_defaults m) as [d|]; [|done]. apply emit_prepend.
Qed.

(** X12. Extracting the defaults of an index whose listing of default
    streams is two listings put together is extracting those of the first
    listing and then, in the file system this left, those of the second:
    the dicts of the first followed by those of the second, or the first
    exception raised. *)
Theorem parse_defaults_app listing1 listing2 module_index fs :
  get_default_streams module_index = (listing1 ++ listing2)%list →
  parse_defaults module_index fs
  = match parse_defaults {| modules := modules module_index;
                            default_streams := listing1 |} fs with
    | (inl e, fs1) => (inl e, fs1)
    | (inr ret1, fs1) =>
        match parse_defaults {| modules := modules module_index;
                                default_streams := listing2 |} fs1 with
        | (inl e, fs2) => (inl e, fs2)
        | (inr ret2, fs2) => (inr (ret1 ++ ret2)%list, fs2)
        end
    end.
Proof.
  intros Hlist. unfold parse_defaults.
  unfold get_default_streams at 2 3. cbn [default_streams].
  rewrite Hlist. unfold keys. rewrite fmap_app, for_in_app.
  unfold mbind, M_bind.
  rewrite (for_in_ext (listing1.*1) _
             (parse_defaults_module {| modules := modules module_index;
                                       default_streams := listing1 |}))
    by (intros; by rewrite !parse_defaults_module_run).
  destruct (for_in (listing1.*1) _ [] fs) as [[e|ret1] fs1]; [done|].
  rewrite (for_in_ext (listing2.*1) _
             (parse_defaults_module {| modules := modules module_index;
                                       default_streams := listing2 |}))
    by (intros; by rewrite !parse_defaults_module_run).
  rewrite <- (app_nil_r ret1) at 1.
  rewrite for_in_prepend by (intros; apply parse_defaults_module_prepend).
  by destruct (for_in (listing2.*1) _ [] fs1) as [[e|ret2] fs2].
Qed.

End MoreSnippets.

(* ===================================================================== *)
(** ** The further properties on the example index                         *)
(* ===================================================================== *)

Lemma sim_defaults_emits md :
  emits (E := Sim.externals) (defaults_document (E := Sim.externals)) md.
Proof.
  unfold emits, defaults_document. simpl. unfold Sim.add_default.
  eexists. split; [reflexivity|]. apply sim_artifact_accepts.
Qed.

Lemma example_defaults_of_index :
  defaults_of_index example_index = Some [(nodejs, nodejs_defaults)].
Proof. vm_compute. reflexivity. Qed.

(** X2 on the two streams of [nodejs]. *)
Lemma parse_modulemd_writes_one_file_per_dict_witness :
  ∃ ss snippets,
    streams_of ["nodejs"] example_index = Some ss ∧
    Forall2 (λ s snippet, stream_document (E := Sim.externals) s = inr snippet)
            ss snippets ∧
    nodejs_streams_run.2
    = foldl (snippet_written (E := Sim.externals)) ∅ snippets ∧
    length (records_of nodejs_streams_run) = length ss ∧
    size nodejs_streams_run.2
    = size (∅ : FS) + length (records_of nodejs_streams_run).
Proof.
  apply (parse_modulemd_writes_one_file_per_dict (E := Sim.externals)
           ["nodejs"] example_index ∅).
  - apply sim_tempfile_fresh.
  - exact nodejs_streams_run_eq.
Defined.

(** X3 on the example index. *)
Lemma parse_defaults_writes_one_file_per_dict_witness :
  ∃ mds snippets,
    defaults_of_index example_index = Some mds ∧
    Forall2 (λ md snippet,
               defaults_document (E := Sim.externals) md = inr snippet)
            mds snippets ∧
    example_defaults_run.2
    = foldl (snippet_written (E := Sim.externals)) ∅ snippets ∧
    length (records_of example_defaults_run) = length mds ∧
    size example_defaults_run.2
    = size (∅ : FS) + length (records_of example_defaults_run).
Proof.
  apply (parse_defaults_writes_one_file_per_dict (E := Sim.externals)
           example_index ∅).
  - apply sim_tempfile_fresh.
  - exact example_defaults_run_eq.
Defined.

(** X4 on a second extraction of the defaults and on an extraction of the
    streams that raises, both in the file system the first extraction of
    the defaults left. *)
Lemma existing_files_are_kept_witness :
  example_defaults_run.2
  ⊆ (parse_modulemd (E := Sim.externals_with Sim.artifact_fails)
       ["nodejs"] example_index example_defaults_run.2).2 ∧
  example_defaults_run.2
  ⊆ (parse_defaults (E := Sim.externals) example_index
       example_defaults_run.2).2.
Proof.
  split.
  - apply (proj1 (existing_files_are_kept
                    (E := Sim.externals_with Sim.artifact_fails)
                    (sim_tempfile_fresh _))).
  - apply (proj2 (existing_files_are_kept (E := Sim.externals)
                    (sim_tempfile_fresh _))).
Defined.

(** X5 on the two streams of [nodejs]. *)
Lemma artifact_files_are_new_and_distinct_witness :
  NoDup ((λ r, file (md_artifact r)) <$> records_of nodejs_streams_run) ∧
  Forall (λ r, (∅ : FS) !! file (md_artifact r) = None)
         (records_of nodejs_streams_run).
Proof.
  apply (proj1 (artifact_files_are_new_and_distinct (E := Sim.externals)
                  (sim_tempfile_fresh _) sim_artifact_keeps_file)
           ["nodejs"] example_index ∅ _ nodejs_streams_run.2).
  exact nodejs_streams_run_eq.
Defined.

(** X8 on the index that lists a module it does not hold, after [nodejs]
    and before [postgresql]. *)
Lemma parse_defaults_missing_listed_module_witness :
  parse_defaults (E := Sim.externals) ghost_listing_index ∅
  = (inl (AttributeError "get_defaults"), example_defaults_run.2).
Proof.
  rewrite (parse_defaults_missing_listed_module (E := Sim.externals)
             [("nodejs", "12")] "ghost" "1" [("postgresql", "9.6")]
             ghost_listing_index ∅ eq_refl eq_refl).
  vm_compute. reflexivity.
Defined.

(** X9 on the example index. *)
Lemma parse_defaults_returns_witness :
  ∃ ret fs',
    parse_defaults (E := Sim.externals) example_index ∅ = (inr ret, fs') ∧
    Forall2 (λ md r, ∃ a, r = defaults_of (E := Sim.externals) md.1 md.2 a)
            [(nodejs, nodejs_defaults)] ret.
Proof.
  apply (parse_defaults_returns (E := Sim.externals) example_index
           [(nodejs, nodejs_defaults)] ∅).
  - exact example_defaults_of_index.
  - repeat constructor. apply sim_defaults_emits.
Defined.

(** X11 on a snippet written to the empty file system. *)
Lemma create_snippet_file_and_artifact_witness :
  let a := {| file := Sim.tmpname ∅;
              sha256 := Sim.digest "modulemd-defaults nodejs:12" |} in
  let fs' : FS := <[Sim.tmpname ∅ := "modulemd-defaults nodejs:12"]> ∅ in
  (∅ : FS) !! Sim.tmpname ∅ = None ∧
  fs' = <[Sim.tmpname ∅ := "modulemd-defaults nodejs:12"]> ∅ ∧
  size fs' = S (size (∅ : FS)) ∧
  (∅ : FS) ⊆ fs' ∧
  (artifact_keeps_file (E := Sim.externals) →
   fs' !! file a = Some "modulemd-defaults nodejs:12" ∧
   (∅ : FS) !! file a = None) ∧
  (∀ H, artifact_hashes_file (E := Sim.externals) H →
        sha256 a = H "modulemd-defaults nodejs:12").
Proof.
  apply (create_snippet_file_and_artifact (E := Sim.externals)
           "modulemd-defaults nodejs:12" ∅).
  - apply sim_tempfile_fresh.
  - vm_compute. reflexivity.
Defined.

(** X12 on the example index, whose listing is [postgresql] and then
    [nodejs]. *)
Lemma parse_defaults_app_witness :
  parse_defaults (E := Sim.externals) example_index ∅
  = match parse_defaults (E := Sim.externals)
            {| modules := modules example_index;
               default_streams := [("postgresql", "9.6")] |} ∅ with
    | (inl e, fs1) => (inl e, fs1)
    | (inr ret1, fs1) =>
        match parse_defaults (E := Sim.externals)
                {| modules := modules example_index;
                   default_streams := [("nodejs", "12")] |} fs1 with
        | (inl e, fs2) => (inl e, fs2)
        | (inr ret2, fs2) => (inr (ret1 ++ ret2)%list, fs2)
        end
    end.
Proof.
  apply (parse_defaults_app (E := Sim.externals)
           [("postgresql", "9.6")] [("nodejs", "12")] example_index ∅).
  reflexivity.
Defined.

(** The name [missing_module] does not resolve, and the call does not end
    with the failure of that lookup: the artifact factory raised on the
    first stream of [nodejs], the name before it, and that exception is
    what leaves the call.  With a factory in order the exception of the
    failed lookup is the attribute error of [get_all_streams] on [None]. *)
Lemma C5_earlier_exception_is_raised_instead :
  get_module example_index "missing_module" = None ∧
  parse_modulemd (E := Sim.externals_with Sim.artifact_fails)
    ["nodejs"; "missing_module"] example_index ∅
  = (inl (OSError "No space left on device"), nodejs_streams_failing_run.2) ∧
  parse_modulemd (E := Sim.externals) ["missing_module"] example_index ∅
  = (inl (AttributeError "get_all_streams"), ∅).
Proof. repeat split; vm_compute; reflexivity. Qed.

